(** * api2go: resource dispatch, pagination links and linked resources

    A shallow embedding of [api.go] (package [api2go]): the pagination
    query parameters and their link calculator, the resource registry and
    the six request handlers.  Go values are modelled as the code has them:
    [uint64] as [Z] with the wrap-around written out, strings as byte
    strings, [map[string]T] as [gmap string T], interfaces as records of
    methods, [error] results and panics as explicit outcomes. *)

From Stdlib Require Import ZArith Lia List Ascii String.
From stdpp Require Import base option strings gmap list sorting.

#[local] Set Warnings "-register-all".
#[local] Open Scope string_scope.
#[local] Open Scope Z_scope.

(** ** Machine integers *)

(** [uint64] arithmetic wraps modulo [2^64]. *)
Definition maxUint64 : Z := 18446744073709551615.

Definition wrap64 (z : Z) : Z := z mod 2 ^ 64.

Definition is_uint64 (z : Z) : Prop := 0 <= z <= maxUint64.

(** ** Errors and panics *)

Inductive NumErrKind := ErrSyntax | ErrRange.

(** The [error] values the package handles: [errors.New], the
    [*strconv.NumError] of [ParseUint] and the package's own [HTTPError]
    built by [NewHTTPError(err, msg, status)]. *)
Inductive error :=
| errorString (s : string)
| NumError (Func Num : string) (Err : NumErrKind)
| HTTPError (err : option error) (msg : string) (status : Z).

(** A Go computation either returns or panics. *)
Inductive go (A : Type) :=
| Return (a : A)
| Panic (msg : string).
Arguments Return {A} a.
Arguments Panic {A} msg.

(** [net/http] status codes used by the package. *)
Definition StatusOK : Z := 200.
Definition StatusCreated : Z := 201.
Definition StatusNoContent : Z := 204.
Definition StatusForbidden : Z := 403.
Definition StatusNotFound : Z := 404.
Definition StatusInternalServerError : Z := 500.

(** ** strconv *)

Definition byteVal (c : ascii) : Z := Z.of_N (N_of_ascii c).

(** The digit a byte stands for in base 10; letters denote digits of ten
    and more, which base 10 refuses like any other byte. *)
Definition digitVal (c : ascii) : option Z :=
  let n := byteVal c in
  if (48 <=? n) && (n <=? 57) then Some (n - 48) else None.

(** The loop of [strconv.ParseUint(s, 10, 64)] over the bytes of [s], with
    [n] the value read so far and [s0] the whole input. *)
Fixpoint parseUintLoop (s0 s : string) (n : Z) : error + Z :=
  match s with
  | EmptyString => inr n
  | String c s' =>
      match digitVal c with
      | None => inl (NumError "ParseUint" s0 ErrSyntax)
      | Some d =>
          if maxUint64 / 10 + 1 <=? n then inl (NumError "ParseUint" s0 ErrRange)
          else
            let n10 := wrap64 (n * 10) in
            let n1 := wrap64 (n10 + d) in
            if (n1 <? n10) || (maxUint64 <? n1)
            then inl (NumError "ParseUint" s0 ErrRange)
            else parseUintLoop s0 s' n1
      end
  end.

Definition ParseUint (s : string) : error + Z :=
  match s with
  | EmptyString => inl (NumError "ParseUint" s ErrSyntax)
  | _ => parseUintLoop s s 0
  end.

Definition digitChar (d : Z) : ascii := ascii_of_N (Z.to_N (48 + d)).

(** [strconv.FormatUint(u, 10)]: digits are produced from the least
    significant one, [for u >= 10 { ... u /= 10 }]. *)
Fixpoint formatBits (fuel : nat) (u : Z) (acc : string) : string :=
  match fuel with
  | O => acc
  | S fuel' =>
      if 10 <=? u
      then formatBits fuel' (u / 10) (String (digitChar (u mod 10)) acc)
      else String (digitChar u) acc
  end.

(** Twenty digits are enough for any [uint64]. *)
Definition FormatUint (u : Z) : string := formatBits 20 u "".

(** ** The conversion [string(i)] of an integer

    Go converts an integer to the UTF-8 encoding of the code point with that
    value ([utf8.EncodeRune]); values that are no code point give U+FFFD. *)
Definition byteOf (z : Z) : ascii := ascii_of_N (Z.to_N z).

Definition encodeRune (r : Z) : string :=
  if (0 <=? r) && (r <=? 127) then String (byteOf r) ""
  else if (0 <=? r) && (r <=? 2047) then
    String (byteOf (Z.lor 192 (Z.shiftr r 6)))
      (String (byteOf (Z.lor 128 (Z.land r 63))) "")
  else if (r <? 0) || (1114111 <? r) || ((55296 <=? r) && (r <=? 57343)) then
    String (byteOf 239) (String (byteOf 191) (String (byteOf 189) ""))
  else if r <=? 65535 then
    String (byteOf (Z.lor 224 (Z.shiftr r 12)))
      (String (byteOf (Z.lor 128 (Z.land (Z.shiftr r 6) 63)))
         (String (byteOf (Z.lor 128 (Z.land r 63))) ""))
  else
    String (byteOf (Z.lor 240 (Z.shiftr r 18)))
      (String (byteOf (Z.lor 128 (Z.land (Z.shiftr r 12) 63)))
         (String (byteOf (Z.lor 128 (Z.land (Z.shiftr r 6) 63)))
            (String (byteOf (Z.lor 128 (Z.land r 63))) ""))).

Definition string_of_int (i : Z) : string := encodeRune i.

(** ** strings *)

(** [strings.Split(s, ",")]. *)
Fixpoint Split_comma (s : string) : list string :=
  match s with
  | EmptyString => [""]
  | String c s' =>
      if Ascii.eqb c ","%char then "" :: Split_comma s'
      else match Split_comma s' with
           | h :: t => String c h :: t
           | [] => [String c ""]
           end
  end.

(** ** net/url *)

(** [url.Values] as [URL.Query()] returns it.  [ParseQuery] only ever
    appends to a key's slice, so every key of the map has a first value;
    the model keeps that value apart from the rest of the slice. *)
Definition Values : Type := gmap string (string * list string).

Definition Values_Get (v : Values) (key : string) : string :=
  match v !! key with
  | Some (x, _) => x
  | None => ""
  end.

Definition Values_Set (v : Values) (key value : string) : Values :=
  <[key := (value, [])]> v.

Definition hexChar (n : Z) : ascii :=
  if n <? 10 then ascii_of_N (Z.to_N (48 + n)) else ascii_of_N (Z.to_N (55 + n)).

(** [shouldEscape(c, encodeQueryComponent)]: letters, digits and
    [-], [_], [.], [~] are kept. *)
Definition shouldEscape (c : ascii) : bool :=
  let n := byteVal c in
  negb (((97 <=? n) && (n <=? 122)) || ((65 <=? n) && (n <=? 90))
        || ((48 <=? n) && (n <=? 57))
        || (n =? 45) || (n =? 95) || (n =? 46) || (n =? 126)).

Fixpoint QueryEscape (s : string) : string :=
  match s with
  | EmptyString => ""
  | String c s' =>
      if Ascii.eqb c " "%char then String "+"%char (QueryEscape s')
      else if shouldEscape c then
        String "%"%char
          (String (hexChar (byteVal c / 16))
             (String (hexChar (byteVal c mod 16)) (QueryEscape s')))
      else String c (QueryEscape s')
  end.

Definition key_le (a b : string * (string * list string)) : Prop :=
  String.leb a.1 b.1 = true.

#[local] Instance key_le_dec a b : Decision (key_le a b).
Proof. unfold key_le. apply _. Defined.

(** The [key=value] pairs of one key, each escaped. *)
Definition encodeKey (kv : string * (string * list string)) : list string :=
  (fun x => QueryEscape kv.1 +:+ "=" +:+ QueryEscape x) <$> (kv.2.1 :: kv.2.2).

Fixpoint joinAmp (l : list string) : string :=
  match l with
  | [] => ""
  | [x] => x
  | x :: l' => x +:+ "&" +:+ joinAmp l'
  end.

(** [Values.Encode]: keys sorted, pairs joined by [&]. *)
Definition Values_Encode (v : Values) : string :=
  joinAmp (mjoin (encodeKey <$> merge_sort key_le (map_to_list v))).

(** ** Requests *)

(** What the handlers read of an [*http.Request]: the URL's path and parsed
    query, the headers and the outcome of reading the body to its end. *)
Record HTTPRequest := {
  URL_Path : string;
  URL_Query : Values;
  r_Header : gmap string (list string);
  r_Body : error + string
}.

Record information := {
  info_prefix : string;
  baseURL : string
}.

Definition GetBaseURL (i : information) : string := baseURL i.
Definition GetPrefix (i : information) : string := info_prefix i.

(** ** Pagination query parameters *)

Record paginationQueryParams := {
  number : string;
  size : string;
  offset : string;
  limit : string
}.

Definition newPaginationQueryParams (r : HTTPRequest) : paginationQueryParams :=
  let queryParams := URL_Query r in
  {| number := Values_Get queryParams "page[number]";
     size := Values_Get queryParams "page[size]";
     offset := Values_Get queryParams "page[offset]";
     limit := Values_Get queryParams "page[limit]" |}.

Definition nonempty (s : string) : bool := negb (String.eqb s "").

Definition isValid (p : paginationQueryParams) : bool :=
  if negb (nonempty (number p)) && negb (nonempty (size p))
     && negb (nonempty (offset p)) && negb (nonempty (limit p))
  then false
  else if nonempty (number p) && nonempty (size p)
          && negb (nonempty (offset p)) && negb (nonempty (limit p))
  then true
  else if negb (nonempty (number p)) && negb (nonempty (size p))
          && nonempty (offset p) && nonempty (limit p)
  then true
  else false.

(** A pagination parameter counts as present when [Get] returns a value
    for it, the empty string being what [Get] returns for a key that is
    not in the query. *)
Definition present (r : HTTPRequest) (key : string) : Prop :=
  Values_Get (URL_Query r) key <> "".

Definition absent (r : HTTPRequest) (key : string) : Prop :=
  Values_Get (URL_Query r) key = "".

(** [fmt.Sprintf("%s?%s", requestURL, params.Encode())]. *)
Definition linkTo (requestURL : string) (params : Values) : string :=
  requestURL +:+ "?" +:+ Values_Encode params.

(** [getLinks] returns the links built so far together with the error, as
    the named results of the Go function do; a page size of zero makes the
    division panic. [count] is the [uint] total converted to [uint64]. *)
Definition getLinks (p : paginationQueryParams) (r : HTTPRequest) (count : Z)
    (info : information) : go (gmap string string * option error) :=
  let result : gmap string string := ∅ in
  let params := URL_Query r in
  let prefix := if nonempty (GetBaseURL info) then GetBaseURL info else "" in
  let requestURL := prefix +:+ URL_Path r in
  if nonempty (number p) then
    match ParseUint (number p) with
    | inl err => Return (result, Some err)
    | inr number_ =>
        let '(params, result) :=
          if negb (String.eqb (number p) "1") then
            let params := Values_Set params "page[number]" "1" in
            let result := <["first" := linkTo requestURL params]> result in
            let params :=
              Values_Set params "page[number]" (FormatUint (wrap64 (number_ - 1))) in
            let result := <["prev" := linkTo requestURL params]> result in
            (params, result)
          else (params, result) in
        match ParseUint (size p) with
        | inl err => Return (result, Some err)
        | inr size_ =>
            if size_ =? 0 then Panic "runtime error: integer divide by zero"
            else
              let totalPages := wrap64 count / size_ in
              let totalPages :=
                if negb (wrap64 count mod size_ =? 0)
                then wrap64 (totalPages + 1) else totalPages in
              if negb (number_ =? totalPages) then
                let params :=
                  Values_Set params "page[number]" (FormatUint (wrap64 (number_ + 1))) in
                let result := <["next" := linkTo requestURL params]> result in
                let params := Values_Set params "page[number]" (FormatUint totalPages) in
                let result := <["last" := linkTo requestURL params]> result in
                Return (result, None)
              else Return (result, None)
        end
    end
  else
    match ParseUint (offset p) with
    | inl err => Return (result, Some err)
    | inr offset_ =>
        match ParseUint (limit p) with
        | inl err => Return (result, Some err)
        | inr limit_ =>
            let '(params, result) :=
              if negb (String.eqb (offset p) "0") then
                let params := Values_Set params "page[offset]" "0" in
                let result := <["first" := linkTo requestURL params]> result in
                let prevOffset :=
                  if offset_ <? limit_ then 0 else wrap64 (offset_ - limit_) in
                let params := Values_Set params "page[offset]" (FormatUint prevOffset) in
                let result := <["prev" := linkTo requestURL params]> result in
                (params, result)
              else (params, result) in
            if wrap64 (offset_ + limit_) <? wrap64 count then
              let params :=
                Values_Set params "page[offset]" (FormatUint (wrap64 (offset_ + limit_))) in
              let result := <["next" := linkTo requestURL params]> result in
              let params :=
                Values_Set params "page[offset]" (FormatUint (wrap64 (wrap64 count - limit_))) in
              let result := <["last" := linkTo requestURL params]> result in
              Return (result, None)
            else Return (result, None)
        end
    end.


(** The links of a call that returned. *)
Definition linksOf (g : go (gmap string string * option error))
    : gmap string string :=
  match g with
  | Return (links, _) => links
  | Panic _ => ∅
  end.

(** The URL a link starts with, and the link that replaces one key of the
    request's query. *)
Definition requestURL (info : information) (r : HTTPRequest) : string :=
  (if nonempty (GetBaseURL info) then GetBaseURL info else "") +:+ URL_Path r.

Definition pageLink (info : information) (r : HTTPRequest) (key value : string)
    : string :=
  linkTo (requestURL info r) (Values_Set (URL_Query r) key value).

(** [ceil(count / s)]. *)
Definition ceilDiv (count s : Z) : Z := (count + s - 1) / s.

(** ** reflect *)

Module reflect.

(** The kinds without fields or elements the handlers look at. *)
Inductive PlainKind :=
| Invalid | Bool | Int | Int8 | Int16 | Int32 | Int64
| Uint | Uint8 | Uint16 | Uint32 | Uint64 | Uintptr
| Float32 | Float64 | Complex64 | Complex128
| Array | Chan | Func | Interface | Map | String_ | UnsafePointer.

Inductive Kind :=
| Struct
| Ptr
| Slice
| Plain (k : PlainKind).

(** A [reflect.Type] as far as the package inspects it: a struct with
    its fields in declaration order, a pointer or slice with its element
    type, or a type of any other kind. *)
Inductive Type_ :=
| StructOf (name : string) (fields : list (string * Type_))
| PtrTo (name : string) (elem : Type_)
| SliceOf (name : string) (elem : Type_)
| PlainOf (k : PlainKind) (name : string).

Definition Kind_of (t : Type_) : Kind :=
  match t with
  | StructOf _ _ => Struct
  | PtrTo _ _ => Ptr
  | SliceOf _ _ => Slice
  | PlainOf k _ => Plain k
  end.

Definition Name (t : Type_) : string :=
  match t with
  | StructOf n _ | PtrTo n _ | SliceOf n _ | PlainOf _ n => n
  end.

(** The fields [Field(0)] ... [Field(NumField()-1)]; [NumField] panics on
    a type that is no struct. *)
Definition Fields (t : Type_) : go (list (string * Type_)) :=
  match t with
  | StructOf _ fs => Return fs
  | _ => Panic "reflect: NumField of non-struct type"
  end.

Definition Elem (t : Type_) : go Type_ :=
  match t with
  | PtrTo _ e | SliceOf _ e => Return e
  | _ => Panic "reflect: Elem of invalid type"
  end.

Definition Kind_eqb (a b : Kind) : bool :=
  match a, b with
  | Struct, Struct | Ptr, Ptr | Slice, Slice => true
  | Plain x, Plain y =>
      match x, y with
      | Invalid, Invalid | Bool, Bool | Int, Int | Int8, Int8 | Int16, Int16
      | Int32, Int32 | Int64, Int64 | Uint, Uint | Uint8, Uint8
      | Uint16, Uint16 | Uint32, Uint32 | Uint64, Uint64 | Uintptr, Uintptr
      | Float32, Float32 | Float64, Float64 | Complex64, Complex64
      | Complex128, Complex128 | Array, Array | Chan, Chan | Func, Func
      | Interface, Interface | Map, Map | String_, String_
      | UnsafePointer, UnsafePointer => true
      | _, _ => false
      end
  | _, _ => false
  end.

End reflect.

(** ** JSON values and error documents *)

(** What [json.Unmarshal] stores in a [map[string]interface{}]. *)
Inductive JSON :=
| JNull
| JBool (b : bool)
| JNumber (literal : string)
| JString (s : string)
| JArray (l : list JSON)
| JObject (m : gmap string JSON).

(** The package's [Error] document; the handlers fill in these fields. *)
Record Error := {
  Status : string;
  Title : string;
  Detail : string
}.

(** ** The per-call request and the data sources *)

Record Request := {
  PlainRequest : HTTPRequest;
  QueryParams : gmap string (list string);
  Header : gmap string (list string)
}.

Definition buildRequest (r : HTTPRequest) : Request :=
  {| PlainRequest := r;
     QueryParams := (fun values => Split_comma values.1) <$> URL_Query r;
     Header := r_Header r |}.

(** [httprouter.Params] and [ByName]. *)
Definition Params : Type := list (string * string).

Fixpoint ByName (ps : Params) (name : string) : string :=
  match ps with
  | [] => ""
  | (k, v) :: ps' => if String.eqb k name then v else ByName ps' name
  end.

(** What a handler hands to [respondWith]: an object of a data source or an
    error document. *)
Inductive payload (Obj : Type) :=
| Data (obj : Obj)
| ErrorDoc (e : Error).
Arguments Data {Obj} obj.
Arguments ErrorDoc {Obj} e.

(** A data source: the mandatory [CRUD] methods and the optional
    interfaces [FindAll], [FindMultiple] and [PaginatedFindAll], present
    when the type assertion on the source succeeds.  Methods run against
    the store [S] of the data sources. *)
Record CRUD (Obj S : Type) := {
  FindOne : string -> Request -> S -> (error + Obj) * S;
  Create : Obj -> Request -> S -> (error + string) * S;
  Delete : string -> Request -> S -> option error * S;
  Update : Obj -> Request -> S -> option error * S;
  asFindAll : option (Request -> S -> (error + Obj) * S);
  asFindMultiple : option (list string -> Request -> S -> (error + Obj) * S);
  asPaginatedFindAll : option (Request -> S -> (error + Obj * Z) * S)
}.
Arguments FindOne {Obj S} c.
Arguments Create {Obj S} c.
Arguments Delete {Obj S} c.
Arguments Update {Obj S} c.
Arguments asFindAll {Obj S} c.
Arguments asFindMultiple {Obj S} c.
Arguments asPaginatedFindAll {Obj S} c.

Record resource (Obj S : Type) := {
  resourceType : reflect.Type_;
  source : CRUD Obj S;
  name : string
}.
Arguments resourceType {Obj S} r.
Arguments source {Obj S} r.
Arguments name {Obj S} r.

(** The invocations of data sources, each with the name of the resource
    whose source is called; handlers log them in call order. *)
Inductive Call (Obj : Type) :=
| CallFindOne (res ID : string) (req : Request)
| CallCreate (res : string) (obj : Obj) (req : Request)
| CallDelete (res id : string) (req : Request)
| CallUpdate (res : string) (obj : Obj) (req : Request)
| CallFindAll (res : string) (req : Request)
| CallFindMultiple (res : string) (IDs : list string) (req : Request)
| CallPaginatedFindAll (res : string) (req : Request).
Arguments CallFindOne {Obj}.
Arguments CallCreate {Obj}.
Arguments CallDelete {Obj}.
Arguments CallUpdate {Obj}.
Arguments CallFindAll {Obj}.
Arguments CallFindMultiple {Obj}.
Arguments CallPaginatedFindAll {Obj}.

(** ** The response writer *)

(** An [http.ResponseWriter]: the header map, the status of the first
    [WriteHeader] and the bytes written. *)
Record ResponseWriter := {
  w_Header : gmap string string;
  w_Status : option Z;
  w_Body : string
}.

Definition newResponseWriter : ResponseWriter :=
  {| w_Header := ∅; w_Status := None; w_Body := "" |}.

Definition Header_Set (k v : string) (w : ResponseWriter) : ResponseWriter :=
  {| w_Header := <[k := v]> (w_Header w); w_Status := w_Status w; w_Body := w_Body w |}.

Definition WriteHeader (code : Z) (w : ResponseWriter) : ResponseWriter :=
  {| w_Header := w_Header w;
     w_Status := match w_Status w with Some c => Some c | None => Some code end;
     w_Body := w_Body w |}.

Definition Write (data : string) (w : ResponseWriter) : ResponseWriter :=
  let w := WriteHeader StatusOK w in
  {| w_Header := w_Header w; w_Status := w_Status w; w_Body := w_Body w +:+ data |}.

(** ** Handlers as state transformers *)

(** What a handler runs against: the store of the data sources, the log of
    their invocations and the response writer. *)
Record World (Obj S : Type) := {
  store : S;
  calls : list (Call Obj);
  writer : ResponseWriter
}.
Arguments store {Obj S} w.
Arguments calls {Obj S} w.
Arguments writer {Obj S} w.
Arguments Build_World {Obj S}.

(** A handler returns [nil] or another value, returns an [error], or
    panics. *)
Inductive outcome (A : Type) :=
| Done (a : A)
| Failed (e : error)
| Panicked (msg : string).
Arguments Done {A} a.
Arguments Failed {A} e.
Arguments Panicked {A} msg.

Definition M (W A : Type) : Type := W -> outcome A * W.

Definition ret {W A} (a : A) : M W A := fun σ => (Done a, σ).

Definition bind {W A B} (m : M W A) (k : A -> M W B) : M W B :=
  fun σ =>
    match m σ with
    | (Done a, σ') => k a σ'
    | (Failed e, σ') => (Failed e, σ')
    | (Panicked msg, σ') => (Panicked msg, σ')
    end.

Definition fail {W A} (e : error) : M W A := fun σ => (Failed e, σ).

Definition panic {W A} (msg : string) : M W A := fun σ => (Panicked msg, σ).

(** [v, err := f(...); if err != nil { return err }]. *)
Definition try {W A} (r : error + A) : M W A :=
  match r with
  | inl e => fail e
  | inr a => ret a
  end.

#[global] Instance M_ret {W} : MRet (M W) := fun A a => ret a.
#[global] Instance M_bind {W} : MBind (M W) := fun A B k m => bind m k.

(** ** Collaborators outside [api.go]

    The [jsonapi] codec, [encoding/json], [marshalError] and the
    assignability test of [reflect.Value.Set] are taken as given. [GetID]
    is the assertion to [jsonapi.MarshalIdentifier] followed by [GetID()];
    it is [None] for an object that does not implement the interface. *)
Class Codec (Obj : Type) := {
  Jsonify : string -> string;
  Pluralize : string -> string;
  GetID : Obj -> option string;
  UnmarshalInto : gmap string JSON -> reflect.Type_ -> list Obj -> error + list Obj;
  MarshalWithURLs : payload Obj -> information -> error + gmap string JSON;
  MarshalToJSONWithURLs : payload Obj -> information -> error + string;
  json_Unmarshal : string -> error + gmap string JSON;
  json_Marshal : gmap string JSON -> error + string;
  marshalError : error -> string;
  assignable : Obj -> reflect.Type_ -> bool
}.

(** The closures [addResource] hands to the router. *)
Inductive Handler (Obj S : Type) :=
| OptionsHandler (allow : string)
| IndexHandler (res : resource Obj S)
| ReadHandler (res : resource Obj S)
| LinkedHandler (res : resource Obj S)
| CreateHandler (res : resource Obj S)
| DeleteHandler (res : resource Obj S)
| UpdateHandler (res : resource Obj S).
Arguments OptionsHandler {Obj S} allow.
Arguments IndexHandler {Obj S} res.
Arguments ReadHandler {Obj S} res.
Arguments LinkedHandler {Obj S} res.
Arguments CreateHandler {Obj S} res.
Arguments DeleteHandler {Obj S} res.
Arguments UpdateHandler {Obj S} res.

(** The [httprouter.Router]: [Handle(method, path, handle)] registers a
    route or panics; [routes] lists the (method, path) pairs registered. *)
Class Router (R H : Type) := {
  router_New : R;
  router_Handle : string -> string -> H -> R -> go R;
  routes : R -> list (string * string)
}.

(** The router's contract on conflicts: a registered route stays
    registered, and registering a method and path a second time panics. *)
Record RouterLaws {R H : Type} (rt : Router R H) : Prop := {
  Handle_registers : forall m p h r r',
    router_Handle m p h r = Return r' -> (m, p) ∈ routes r';
  Handle_keeps : forall m p h r r' q,
    router_Handle m p h r = Return r' -> q ∈ routes r -> q ∈ routes r';
  Handle_conflict : forall m p h r,
    (m, p) ∈ routes r -> exists msg, router_Handle m p h r = Panic msg
}.

Record API (R Obj S : Type) := {
  router : R;
  prefix : string;
  info : information;
  resources : list (resource Obj S)
}.
Arguments router {R Obj S} a.
Arguments prefix {R Obj S} a.
Arguments info {R Obj S} a.
Arguments resources {R Obj S} a.
Arguments Build_API {R Obj S}.

(** [strings.Trim(s, "/")]. *)
Fixpoint TrimLeft_slash (s : string) : string :=
  match s with
  | String c s' => if Ascii.eqb c "/"%char then TrimLeft_slash s' else s
  | EmptyString => ""
  end.

Fixpoint TrimRight_slash (s : string) : string :=
  match s with
  | String c s' =>
      match TrimRight_slash s' with
      | EmptyString => if Ascii.eqb c "/"%char then "" else String c ""
      | t => String c t
      end
  | EmptyString => ""
  end.

Definition Trim_slash (s : string) : string := TrimRight_slash (TrimLeft_slash s).

Section Handlers.
Context {R Obj S : Type} {codec : Codec Obj} {rt : Router R (Handler Obj S)}.

(** [NewAPI]: the route prefix gets one slash on either side; no resource
    is registered yet. *)
Definition NewAPI (prefix : string) : API R Obj S :=
  let prefixSlashes := Trim_slash prefix in
  let prefixSlashes :=
    if (0 <? Z.of_nat (String.length prefixSlashes))
    then "/" +:+ prefixSlashes +:+ "/" else "/" in
  {| router := router_New;
     prefix := prefixSlashes;
     info := {| info_prefix := prefix; baseURL := "" |};
     resources := [] |}.

Definition NewAPIWithBaseURL (prefix' baseURL' : string) : API R Obj S :=
  let api := NewAPI prefix' in
  {| router := router api;
     prefix := prefix api;
     info := {| info_prefix := info_prefix (info api); baseURL := baseURL' |};
     resources := resources api |}.

(** One [api.router.Handle] call of [addResource]. *)
Definition handle (method path : string) (h : Handler Obj S)
    (r : go R) : go R :=
  match r with
  | Return r => router_Handle method path h r
  | Panic msg => Panic msg
  end.

(** [reflect.TypeOf(prototype)] is [None] for a nil prototype; calling
    [Kind] on it is a nil dereference. *)
Definition addResource (api : API R Obj S) (prototype : option reflect.Type_)
    (source : CRUD Obj S) : go (API R Obj S * resource Obj S) :=
  match prototype with
  | None => Panic "runtime error: invalid memory address or nil pointer dereference"
  | Some resourceType =>
      if negb (reflect.Kind_eqb (reflect.Kind_of resourceType) reflect.Struct)
      then Panic "pass an empty resource struct to AddResource!"
      else
        let name := Jsonify (Pluralize (reflect.Name resourceType)) in
        let res := {| resourceType := resourceType; name := name; source := source |} in
        let p := prefix api in
        let r := Return (router api) in
        let r := handle "OPTIONS" (p +:+ name) (OptionsHandler "GET,POST,PATCH,OPTIONS") r in
        let r := handle "OPTIONS" (p +:+ name +:+ "/:id")
                   (OptionsHandler "GET,PATCH,DELETE,OPTIONS") r in
        let r := handle "GET" (p +:+ name) (IndexHandler res) r in
        let r := handle "GET" (p +:+ name +:+ "/:id") (ReadHandler res) r in
        let r := handle "GET" (p +:+ name +:+ "/:id/:linked") (LinkedHandler res) r in
        let r := handle "POST" (p +:+ name) (CreateHandler res) r in
        let r := handle "DELETE" (p +:+ name +:+ "/:id") (DeleteHandler res) r in
        let r := handle "PATCH" (p +:+ name +:+ "/:id") (UpdateHandler res) r in
        match r with
        | Panic msg => Panic msg
        | Return r =>
            Return ({| router := r; prefix := prefix api; info := info api;
                       resources := resources api ++ [res] |}, res)
        end
  end.

Definition AddResource (api : API R Obj S) (prototype : option reflect.Type_)
    (source : CRUD Obj S) : go (API R Obj S) :=
  match addResource api prototype source with
  | Return (api', _) => Return api'
  | Panic msg => Panic msg
  end.

(** Registering a list of prototypes in order, from the first on. *)
Fixpoint AddResources (api : API R Obj S)
    (l : list (option reflect.Type_ * CRUD Obj S)) : go (API R Obj S) :=
  match l with
  | [] => Return api
  | (prototype, source) :: l' =>
      match AddResource api prototype source with
      | Return api' => AddResources api' l'
      | Panic msg => Panic msg
      end
  end.

(** Every registered resource has its collection route in the router. *)
Definition registryInv (api : API R Obj S) : Prop :=
  forall res, res ∈ resources api ->
    ("OPTIONS", prefix api +:+ name res) ∈ routes (router api).

#[local] Abbreviation W := (World Obj S).

(** Invoking a method of a data source: the call is logged, the store
    updated, and an [error] result becomes the handler's. *)
Definition call {A} (c : Call Obj) (f : S -> (error + A) * S) : M W A :=
  fun σ =>
    let '(r, st) := f (store σ) in
    (match r with inl e => Failed e | inr a => Done a end,
     {| store := st; calls := calls σ ++ [c]; writer := writer σ |}).

Definition call_ (c : Call Obj) (f : S -> option error * S) : M W unit :=
  fun σ =>
    let '(r, st) := f (store σ) in
    (match r with Some e => Failed e | None => Done tt end,
     {| store := st; calls := calls σ ++ [c]; writer := writer σ |}).

Definition respond (f : ResponseWriter -> ResponseWriter) : M W unit :=
  fun σ => (Done tt, {| store := store σ; calls := calls σ; writer := f (writer σ) |}).

Definition lift {A} (g : go A) : M W A :=
  match g with
  | Return a => ret a
  | Panic msg => panic msg
  end.

(** [respondWith] and [respondWithPagination]: nothing is written when
    marshalling fails. *)
Definition respondWith (obj : payload Obj) (info : information) (status : Z)
    : M W unit :=
  data ← try (MarshalToJSONWithURLs obj info);
  respond (Header_Set "Content-Type" "application/vnd.api+json");;
  respond (WriteHeader status);;
  respond (Write data).

Definition respondWithPagination (obj : payload Obj) (info : information)
    (status : Z) (links : gmap string string) : M W unit :=
  data ← try (MarshalWithURLs obj info);
  let data := <["links" := JObject (JString <$> links)]> data in
  result ← try (json_Marshal data);
  respond (Header_Set "Content-Type" "application/vnd.api+json");;
  respond (WriteHeader status);;
  respond (Write result).

Definition unmarshalJSONRequest (r : HTTPRequest) : error + gmap string JSON :=
  match r_Body r with
  | inl err => inl err
  | inr data => json_Unmarshal data
  end.

(** [http.Error(w, error, code)]. *)
Definition http_Error (msg : string) (code : Z) (w : ResponseWriter)
    : ResponseWriter :=
  let w := Header_Set "Content-Type" "text/plain; charset=utf-8" w in
  let w := Header_Set "X-Content-Type-Options" "nosniff" w in
  let w := WriteHeader code w in
  Write (msg +:+ String (ascii_of_N 10) "") w.

(** [handleError]: an [HTTPError] keeps its status, any other error
    gives 500; the log line is left out. *)
Definition handleError (err : error) (w : ResponseWriter) : ResponseWriter :=
  match err with
  | HTTPError _ _ status => http_Error (marshalError err) status w
  | _ => http_Error (marshalError err) StatusInternalServerError w
  end.

(** [handleIndex]: with valid pagination parameters the source must be a
    [PaginatedFindAll] and the links are computed from its count;
    otherwise the source must be a [FindAll]. *)
Definition handleIndex (res : resource Obj S) (r : HTTPRequest)
    (info : information) : M W unit :=
  let pagination := newPaginationQueryParams r in
  if isValid pagination then
    match asPaginatedFindAll (source res) with
    | None =>
        fail (HTTPError None
                "Resource does not implement the PaginatedFindAll interface"
                StatusNotFound)
    | Some PaginatedFindAll =>
        '(objs, count) ←
          call (CallPaginatedFindAll (name res) (buildRequest r))
               (PaginatedFindAll (buildRequest r));
        '(paginationLinks, err) ← lift (getLinks pagination r count info);
        match err with
        | Some err => fail err
        | None => respondWithPagination (Data objs) info StatusOK paginationLinks
        end
    end
  else
    match asFindAll (source res) with
    | None =>
        fail (HTTPError None "Resource does not implement the FindAll interface"
                StatusNotFound)
    | Some FindAll =>
        objs ← call (CallFindAll (name res) (buildRequest r))
                     (FindAll (buildRequest r));
        respondWith (Data objs) info StatusOK
    end.

(** [handleRead]: one identifier goes to [FindOne], a comma-separated
    list to [FindMultiple]. *)
Definition handleRead (res : resource Obj S) (r : HTTPRequest) (ps : Params)
    (info : information) : M W unit :=
  let ids := Split_comma (ByName ps "id") in
  obj ←
    match ids with
    | [id] => call (CallFindOne (name res) id (buildRequest r))
                   (FindOne (source res) id (buildRequest r))
    | _ =>
        match asFindMultiple (source res) with
        | None =>
            fail (HTTPError None
                    "Resource does not implement the FindMultiple interface"
                    StatusNotFound)
        | Some FindMultiple =>
            call (CallFindMultiple (name res) ids (buildRequest r))
                 (FindMultiple ids (buildRequest r))
        end
    end;
  respondWith (Data obj) info StatusOK.

(** Whether a struct field is the relation asked for: pointer or slice
    kind, and conventionalized name equal to [linked]. *)
Definition isLinkedField (linked : string) (field : string * reflect.Type_)
    : bool :=
  let fieldName := Jsonify field.1 in
  let kind := reflect.Kind_of field.2 in
  (reflect.Kind_eqb kind reflect.Ptr || reflect.Kind_eqb kind reflect.Slice)
  && String.eqb fieldName linked.

(** The inner loop of [handleLinked]: the first registered resource of
    the given name. *)
Fixpoint findResource (resources : list (resource Obj S)) (fieldType : string)
    : option (resource Obj S) :=
  match resources with
  | [] => None
  | resource :: rest =>
      if String.eqb (name resource) fieldType then Some resource
      else findResource rest fieldType
  end.

(** The two loops of [handleLinked] up to the [return] inside them: the
    resource the loops stop at, if any. *)
Fixpoint findLinked (resources : list (resource Obj S)) (linked : string)
    (fields : list (string * reflect.Type_)) : go (option (resource Obj S)) :=
  match fields with
  | [] => Return None
  | field :: rest =>
      if isLinkedField linked field then
        match reflect.Elem field.2 with
        | Panic msg => Panic msg
        | Return elem =>
            let fieldType := Pluralize (Jsonify (reflect.Name elem)) in
            match findResource resources fieldType with
            | Some resource => Return (Some resource)
            | None => findLinked resources linked rest
            end
        end
      else findLinked resources linked rest
  end.

(** A field and a registered resource answer the relation [linked]: the
    field is a linked field, and the resource is named after the field's
    element type. *)
Definition isTargetOf (linked : string) (field : string * reflect.Type_)
    (target : resource Obj S) : Prop :=
  isLinkedField linked field = true /\
  exists elem, reflect.Elem field.2 = Return elem /\
    name target = Pluralize (Jsonify (reflect.Name elem)).

(** The request [handleLinked] builds for the target's [FindAll]:
    [request.QueryParams[res.name+"ID"] = []string{id}]. *)
Definition linkedRequest (res : resource Obj S) (r : HTTPRequest) (id : string)
    : Request :=
  let request := buildRequest r in
  {| PlainRequest := PlainRequest request;
     QueryParams := <[name res +:+ "ID" := [id]]> (QueryParams request);
     Header := Header request |}.

(** The document [handleLinked] answers an unresolved relation with. *)
Definition linkedNotFound (linked : string) : Error :=
  {| Status := string_of_int StatusNotFound;
     Title := "Not Found";
     Detail := "No resource handler is registered to handle the linked resource "
               +:+ linked |}.

(** [handleLinked]: the body of the loops runs for the resource they stop
    at; past the loops the "Not Found" document is sent. *)
Definition handleLinked (res : resource Obj S) (api : API R Obj S)
    (r : HTTPRequest) (ps : Params) (info : information) : M W unit :=
  let id := ByName ps "id" in
  let linked := ByName ps "linked" in
  fields ← lift (reflect.Fields (resourceType res));
  found ← lift (findLinked (resources api) linked fields);
  match found with
  | Some resource =>
      match asFindAll (source resource) with
      | None =>
          fail (HTTPError None "Resource does not implement the FindAll interface"
                  StatusNotFound)
      | Some FindAll =>
          let request := linkedRequest res r id in
          obj ← call (CallFindAll (name resource) request) (FindAll request);
          respondWith (Data obj) info StatusOK
      end
  | None => respondWith (ErrorDoc (linkedNotFound linked)) info StatusNotFound
  end.

(** The document [handleCreate] answers a client identifier with. *)
Definition clientIDForbidden : Error :=
  {| Status := string_of_int StatusForbidden;
     Title := "Forbidden";
     Detail := "Client generated IDs are not supported." |}.

(** [handleCreate]: the body is decoded into a fresh slice, which must
    hold one object; an object with an identifier is refused, any other is
    created and read back. *)
Definition handleCreate (res : resource Obj S) (r : HTTPRequest)
    (prefix : string) (info : information) : M W unit :=
  ctx ← try (unmarshalJSONRequest r);
  newObjs ← try (UnmarshalInto ctx (resourceType res) []);
  match newObjs with
  | [newObj] =>
      let hasID :=
        match GetID newObj with
        | Some checkID => nonempty checkID
        | None => false
        end in
      if hasID then respondWith (ErrorDoc clientIDForbidden) info StatusForbidden
      else
        id ← call (CallCreate (name res) newObj (buildRequest r))
                   (Create (source res) newObj (buildRequest r));
        respond (Header_Set "Location" (prefix +:+ name res +:+ "/" +:+ id));;
        obj ← call (CallFindOne (name res) id (buildRequest r))
                    (FindOne (source res) id (buildRequest r));
        respondWith (Data obj) info StatusCreated
  | _ => fail (errorString "expected one object in POST")
  end.

(** [NewHTTPError(errors.New("Forbidden"), msg, http.StatusForbidden)]. *)
Definition forbidden (msg : string) : error :=
  HTTPError (Some (errorString "Forbidden")) msg StatusForbidden.


(** [handleUpdate]: the object is fetched first; then the body is decoded
    and its envelope checked; then the body is decoded over the fetched
    object, which [Index(0).Set] stores in the slice and which must be
    assignable to the resource's type, and the result goes to [Update]. *)
Definition handleUpdate (res : resource Obj S) (r : HTTPRequest) (ps : Params)
    : M W unit :=
  obj ← call (CallFindOne (name res) (ByName ps "id") (buildRequest r))
              (FindOne (source res) (ByName ps "id") (buildRequest r));
  ctx ← try (unmarshalJSONRequest r);
  match ctx !! "data" with
  | None => fail (forbidden "missing mandatory data key.")
  | Some data =>
      match data with
      | JObject check =>
          match check !! "id" with
          | None => fail (forbidden "missing mandatory id key.")
          | Some _ =>
              match check !! "type" with
              | None => fail (forbidden "missing mandatory type key.")
              | Some _ =>
                  if negb (assignable obj (resourceType res))
                  then panic "reflect.Set: value is not assignable to type"
                  else
                    updatingObjs ←
                      try (UnmarshalInto ctx (resourceType res) [obj]);
                    match updatingObjs with
                    | [updatingObj] =>
                        call_ (CallUpdate (name res) updatingObj (buildRequest r))
                              (Update (source res) updatingObj (buildRequest r));;
                        respond (WriteHeader StatusNoContent)
                    | _ => fail (errorString "expected one object")
                    end
              end
          end
      | _ => fail (forbidden "data must contain an object.")
      end
  end.

(** [handleDelete]. *)
Definition handleDelete (res : resource Obj S) (r : HTTPRequest) (ps : Params)
    : M W unit :=
  call_ (CallDelete (name res) (ByName ps "id") (buildRequest r))
        (Delete (source res) (ByName ps "id") (buildRequest r));;
  respond (WriteHeader StatusNoContent).

(** The closure registered for a route: the handler's error, if any,
    goes to [handleError]. *)
Definition serve (h : M W unit) : M W unit :=
  fun σ =>
    match h σ with
    | (Failed err, σ') =>
        (Done tt, {| store := store σ'; calls := calls σ';
                     writer := handleError err (writer σ') |})
    | other => other
    end.

End Handlers.

(** ** A small instance

    One resource type [Post] with a slice of comments and a pointer to its
    author, an in-memory data source over a list of (id, title) pairs, a
    codec and a router that refuses a route registered twice. *)
Module Demo.

Inductive Obj :=
| One (id title : string)
| Many (items : list (string * string)).

Definition Store : Type := list (string * string).

Fixpoint lookup_id (st : Store) (id : string) : option string :=
  match st with
  | [] => None
  | (k, v) :: st' => if String.eqb k id then Some v else lookup_id st' id
  end.

Definition notFound : error := HTTPError None "not found" StatusNotFound.

Definition findOne (id : string) (_ : Request) (st : Store)
    : (error + Obj) * Store :=
  match lookup_id st id with
  | Some title => (inr (One id title), st)
  | None => (inl notFound, st)
  end.

Definition create (obj : Obj) (_ : Request) (st : Store)
    : (error + string) * Store :=
  match obj with
  | One _ title =>
      let id := FormatUint (Z.of_nat (length st) + 1) in
      (inr id, (st ++ [(id, title)])%list)
  | Many _ => (inl (errorString "not a post"), st)
  end.

Definition delete (id : string) (_ : Request) (st : Store)
    : option error * Store :=
  match lookup_id st id with
  | Some _ => (None, filter (fun kv => kv.1 ≠ id) st)
  | None => (Some notFound, st)
  end.

Definition update (obj : Obj) (_ : Request) (st : Store)
    : option error * Store :=
  match obj with
  | One id title =>
      (None, (fun kv => if String.eqb kv.1 id then (id, title) else kv) <$> st)
  | Many _ => (Some (errorString "not a post"), st)
  end.

Definition findAll (_ : Request) (st : Store) : (error + Obj) * Store :=
  (inr (Many st), st).

Definition paginatedFindAll (_ : Request) (st : Store)
    : (error + Obj * Z) * Store :=
  (inr (Many st, Z.of_nat (length st)), st).

(** A source with every optional interface, and one with none. *)
Definition fullSource : CRUD Obj Store :=
  {| FindOne := findOne; Create := create; Delete := delete; Update := update;
     asFindAll := Some findAll;
     asFindMultiple := None;
     asPaginatedFindAll := Some paginatedFindAll |}.

Definition crudSource : CRUD Obj Store :=
  {| FindOne := findOne; Create := create; Delete := delete; Update := update;
     asFindAll := None; asFindMultiple := None; asPaginatedFindAll := None |}.

(** A decoder that knows the request bodies used below. *)
Definition decode (body : string) : error + gmap string JSON :=
  if String.eqb body "{}" then inr ∅
  else if String.eqb body "{data:null}" then inr {["data" := JNull]}
  else if String.eqb body "{data:{id:1}}"
  then inr {["data" := JObject {["id" := JString "1"]}]}
  else if String.eqb body "{data:{id:1,type:posts,title:new}}"
  then inr {["data" := JObject (<["id" := JString "1"]>
                                (<["type" := JString "posts"]>
                                 {["title" := JString "new"]}))]}
  else if String.eqb body "{data:{type:posts,title:new}}"
  then inr {["data" := JObject (<["type" := JString "posts"]>
                                {["title" := JString "new"]})]}
  else inl (errorString "invalid character").

Definition field (check : gmap string JSON) (key : string) : string :=
  match check !! key with
  | Some (JString s) => s
  | _ => ""
  end.

Definition unmarshalInto (ctx : gmap string JSON) (_ : reflect.Type_)
    (objs : list Obj) : error + list Obj :=
  match ctx !! "data" with
  | Some (JObject check) =>
      match objs with
      | [One id _] => inr [One id (field check "title")]
      | _ => inr [One (field check "id") (field check "title")]
      end
  | _ => inl (errorString "no data")
  end.

Definition lowerFirst (s : string) : string :=
  match s with
  | String c s' =>
      let n := byteVal c in
      if (65 <=? n) && (n <=? 90) then String (byteOf (n + 32)) s' else s
  | EmptyString => ""
  end.

#[global] Instance codec : Codec Obj :=
  {| Jsonify := lowerFirst;
     Pluralize := fun s => s +:+ "s";
     GetID := fun obj => match obj with One id _ => Some id | Many _ => None end;
     UnmarshalInto := unmarshalInto;
     MarshalWithURLs := fun _ _ => inr ∅;
     MarshalToJSONWithURLs := fun obj _ =>
       match obj with
       | Data _ => inr "{data}"
       | ErrorDoc e => inr ("{errors:" +:+ Detail e +:+ "}")
       end;
     json_Unmarshal := decode;
     json_Marshal := fun _ => inr "{data,links}";
     marshalError := fun _ => "{errors}";
     assignable := fun obj _ => match obj with One _ _ => true | Many _ => false end |}.

Definition route_eqb (a b : string * string) : bool :=
  String.eqb a.1 b.1 && String.eqb a.2 b.2.

#[global] Instance router : Router (list (string * string)) (Handler Obj Store) :=
  {| router_New := [];
     router_Handle := fun method path _ r =>
       if existsb (route_eqb (method, path)) r
       then Panic ("a handle is already registered for path " +:+ path)
       else Return ((method, path) :: r);
     routes := fun r => r |}.

Definition Comment : reflect.Type_ :=
  reflect.StructOf "Comment" [("ID", reflect.PlainOf reflect.String_ "string")].

Definition User : reflect.Type_ :=
  reflect.StructOf "User" [("ID", reflect.PlainOf reflect.String_ "string")].

Definition Post : reflect.Type_ :=
  reflect.StructOf "Post"
    [("ID", reflect.PlainOf reflect.String_ "string");
     ("Title", reflect.PlainOf reflect.String_ "string");
     ("Comments", reflect.SliceOf "" Comment);
     ("Author", reflect.PtrTo "" User)].

Definition posts : resource Obj Store :=
  {| resourceType := Post; source := fullSource; name := "posts" |}.

Definition comments : resource Obj Store :=
  {| resourceType := Comment; source := fullSource; name := "comments" |}.

Definition users : resource Obj Store :=
  {| resourceType := User; source := crudSource; name := "users" |}.

Definition noInfo : information := {| info_prefix := "v1"; baseURL := "" |}.

Definition request (path : string) (query : list (string * string))
    (body : string) : HTTPRequest :=
  {| URL_Path := path;
     URL_Query := list_to_map ((fun kv => (kv.1, (kv.2, []))) <$> query);
     r_Header := ∅;
     r_Body := inr body |}.

Definition world (st : Store) : World Obj Store :=
  {| store := st; calls := []; writer := newResponseWriter |}.

Definition api0 : API (list (string * string)) Obj Store := NewAPI "v1".

(** [api0] after registering posts, comments and users. *)
Definition registrations : list (option reflect.Type_ * CRUD Obj Store) :=
  [(Some Post, fullSource); (Some Comment, fullSource); (Some User, crudSource)].

Definition api : API (list (string * string)) Obj Store :=
  match AddResources api0 registrations with
  | Return api => api
  | Panic _ => api0
  end.

End Demo.

(** ** Vocabulary of the further properties *)

(** [strings.Join(l, ",")], the inverse of the split of path identifiers
    and query values. *)
Fixpoint Join_comma (l : list string) : string :=
  match l with
  | [] => ""
  | [x] => x
  | x :: l' => x +:+ "," +:+ Join_comma l'
  end.

Fixpoint hasComma (s : string) : bool :=
  match s with
  | EmptyString => false
  | String c s' => Ascii.eqb c ","%char || hasComma s'
  end.

(** The methods of a data source that only read. *)
Definition isRead {Obj : Type} (c : Call Obj) : bool :=
  match c with
  | CallFindOne _ _ _ | CallFindAll _ _ | CallFindMultiple _ _ _
  | CallPaginatedFindAll _ _ => true
  | CallCreate _ _ _ | CallDelete _ _ _ | CallUpdate _ _ _ => false
  end.

(** The query key the links of a request replace: [page[number]] in
    page/size mode, [page[offset]] in offset/limit mode. *)
Definition linkKey (p : paginationQueryParams) : string :=
  if nonempty (number p) then "page[number]" else "page[offset]".

(** The status [handleError] answers an error with. *)
Definition errorStatus (err : error) : Z :=
  match err with
  | HTTPError _ _ status => status
  | _ => StatusInternalServerError
  end.

(** A computation that invokes no data source: the log of calls and the
    store are as before. *)
Definition quiet {Obj S A : Type} (m : M (World Obj S) A) : Prop :=
  forall σ, calls (m σ).2 = calls σ /\ store (m σ).2 = store σ.


(** A computation that leaves the status line and the body of the
    response alone; it may set headers. *)
Definition mute {Obj S A : Type} (m : M (World Obj S) A) : Prop :=
  forall σ, w_Status (writer (m σ).2) = w_Status (writer σ)
            /\ w_Body (writer (m σ).2) = w_Body (writer σ).

(** A handler that, on a response not yet begun, either returns with one
    of the given statuses written, or returns an error or panics with no
    status and no body written. *)
Definition settles {Obj S : Type} (statuses : list Z) (m : M (World Obj S) unit)
    : Prop :=
  forall σ, w_Status (writer σ) = None ->
    match (m σ).1 with
    | Done _ => exists status,
        status ∈ statuses /\ w_Status (writer (m σ).2) = Some status
    | _ => w_Status (writer (m σ).2) = None
           /\ w_Body (writer (m σ).2) = w_Body (writer σ)
    end.

(** A data source whose objects cannot be read back, and a resource over
    it. *)
Definition writeOnlySource : CRUD Demo.Obj Demo.Store :=
  {| FindOne := fun _ _ st => (inl Demo.notFound, st);
     Create := Demo.create; Delete := Demo.delete; Update := Demo.update;
     asFindAll := None; asFindMultiple := None; asPaginatedFindAll := None |}.

Definition drafts : resource Demo.Obj Demo.Store :=
  {| resourceType := Demo.Post; source := writeOnlySource; name := "drafts" |}.

(** The closures of [addResource] at work: the two [OPTIONS] routes set
    the [Allow] header and answer 204, the six others run their handler
    and hand its error to [handleError].  The closures hold the API by
    reference, so a request sees the registry of the time it is served. *)
Section Routes.
Context {R Obj S : Type} {codec : Codec Obj} {rt : Router R (Handler Obj S)}.

Definition runHandler (api : API R Obj S) (h : Handler Obj S) (r : HTTPRequest)
    (ps : Params) : M (World Obj S) unit :=
  match h with
  | OptionsHandler allow =>
      respond (Header_Set "Allow" allow);;
      respond (WriteHeader StatusNoContent)
  | IndexHandler res => serve (handleIndex res r (info api))
  | ReadHandler res => serve (handleRead res r ps (info api))
  | LinkedHandler res => serve (handleLinked res api r ps (info api))
  | CreateHandler res => serve (handleCreate res r (prefix api) (info api))
  | DeleteHandler res => serve (handleDelete res r ps)
  | UpdateHandler res => serve (handleUpdate res r ps)
  end.

End Routes.

(** * Properties *)

(** ** strconv *)

Lemma digitVal_digitChar d : 0 <= d <= 9 -> digitVal (digitChar d) = Some d.
Proof.
  intros Hd.
  assert (d = 0 \/ d = 1 \/ d = 2 \/ d = 3 \/ d = 4 \/ d = 5 \/ d = 6 \/ d = 7
          \/ d = 8 \/ d = 9) as Hcases by lia.
  repeat (destruct Hcases as [-> | Hcases]; [reflexivity |]).
  subst d. reflexivity.
Qed.

Lemma wrap64_small z : is_uint64 z -> wrap64 z = z.
Proof. unfold is_uint64, wrap64, maxUint64. intros H. apply Z.mod_small. lia. Qed.

Lemma wrap64_range z : is_uint64 (wrap64 z).
Proof.
  unfold is_uint64, wrap64, maxUint64.
  pose proof (Z.mod_pos_bound z (2 ^ 64) ltac:(lia)). lia.
Qed.

(** One round of the parsing loop on a digit that does not overflow. *)
Lemma parseUintLoop_digit s0 d s n :
  0 <= d <= 9 -> 0 <= n -> n * 10 + d <= maxUint64 ->
  parseUintLoop s0 (String (digitChar d) s) n = parseUintLoop s0 s (n * 10 + d).
Proof.
  intros Hd Hn Hmax. cbn [parseUintLoop]. rewrite digitVal_digitChar by done.
  assert ((maxUint64 / 10 + 1 <=? n) = false) as ->.
  { apply Z.leb_gt. unfold maxUint64 in *. change (18446744073709551615 / 10) with 1844674407370955161. lia. }
  rewrite (wrap64_small (n * 10)) by (unfold is_uint64; lia).
  rewrite (wrap64_small (n * 10 + d)) by (unfold is_uint64; lia).
  assert ((n * 10 + d <? n * 10) = false) as -> by (apply Z.ltb_ge; lia).
  assert ((maxUint64 <? n * 10 + d) = false) as -> by (apply Z.ltb_ge; lia).
  reflexivity.
Qed.

(** Parsing the digits [formatBits] writes in front of [acc] shifts the
    value read so far and adds the number written. *)
Lemma parseUintLoop_formatBits s0 fuel : forall u acc n,
  0 <= u < 10 ^ Z.of_nat fuel -> 0 <= n ->
  exists m, 0 < m /\
    (n * m + u <= maxUint64 ->
     parseUintLoop s0 (formatBits fuel u acc) n = parseUintLoop s0 acc (n * m + u)).
Proof.
  induction fuel as [| fuel IH]; intros u acc n Hu Hn.
  - change (10 ^ Z.of_nat 0) with 1 in Hu. exists 1. split; [lia |].
    intros _. cbn. f_equal. lia.
  - cbn [formatBits]. destruct (10 <=? u) eqn:Hten.
    + apply Z.leb_le in Hten.
      assert (0 <= u / 10 < 10 ^ Z.of_nat fuel) as Hq.
      { split; [apply Z.div_pos; lia |].
        apply Z.div_lt_upper_bound; [lia |].
        rewrite Nat2Z.inj_succ, Z.pow_succ_r in Hu by lia. lia. }
      destruct (IH (u / 10) (String (digitChar (u mod 10)) acc) n Hq Hn)
        as (m & Hm & Heq).
      exists (m * 10). split; [lia |]. intros Hmax.
      pose proof (Z.div_mod u 10 ltac:(lia)) as Hdm.
      pose proof (Z.mod_pos_bound u 10 ltac:(lia)) as Hmod.
      rewrite Heq by nia.
      rewrite parseUintLoop_digit by nia.
      f_equal. lia.
    + apply Z.leb_gt in Hten. exists 10. split; [lia |]. intros Hmax.
      rewrite parseUintLoop_digit by lia. reflexivity.
Qed.

Lemma formatBits_nonempty fuel : forall u acc,
  formatBits (S fuel) u acc <> "".
Proof.
  induction fuel as [| fuel IH]; intros u acc; cbn [formatBits].
  - destruct (10 <=? u); discriminate.
  - destruct (10 <=? u); [apply IH | discriminate].
Qed.

(** [ParseUint] reads back what [FormatUint] writes. *)
Lemma ParseUint_FormatUint u : is_uint64 u -> ParseUint (FormatUint u) = inr u.
Proof.
  intros Hu. unfold ParseUint, FormatUint.
  destruct (formatBits 20 u "") eqn:Hf.
  { exfalso. exact (formatBits_nonempty 19 u "" Hf). }
  rewrite <- Hf.
  destruct (parseUintLoop_formatBits (formatBits 20 u "") 20 u "" 0) as (m & Hm & Heq).
  - unfold is_uint64, maxUint64 in Hu. change (10 ^ Z.of_nat 20) with 100000000000000000000. lia.
  - lia.
  - rewrite Heq by (unfold is_uint64 in Hu; lia). reflexivity.
Qed.

Lemma FormatUint_inj u v :
  is_uint64 u -> is_uint64 v -> FormatUint u = FormatUint v -> u = v.
Proof.
  intros Hu Hv Heq.
  pose proof (ParseUint_FormatUint u Hu) as H1.
  rewrite Heq, ParseUint_FormatUint in H1 by done. congruence.
Qed.

Lemma parseUintLoop_range s0 s : forall n v,
  is_uint64 n -> parseUintLoop s0 s n = inr v -> is_uint64 v.
Proof.
  induction s as [| c s IH]; intros n v Hn; cbn [parseUintLoop].
  - intros [= <-]. exact Hn.
  - destruct (digitVal c) as [d |]; [| discriminate].
    destruct (maxUint64 / 10 + 1 <=? n); [discriminate |].
    destruct ((_ <? _) || (_ <? _)); [discriminate |].
    apply IH, wrap64_range.
Qed.

(** Whatever [ParseUint] accepts fits in 64 bits. *)
Lemma ParseUint_range s v : ParseUint s = inr v -> is_uint64 v.
Proof.
  unfold ParseUint. destruct s; [discriminate |].
  apply parseUintLoop_range. unfold is_uint64, maxUint64. lia.
Qed.

(** ** The link calculator *)

Lemma Values_Set_Set (v : Values) key a b :
  Values_Set (Values_Set v key a) key b = Values_Set v key b.
Proof. unfold Values_Set. apply insert_insert_eq. Qed.

Lemma nonempty_true s : nonempty s = true <-> s <> "".
Proof.
  unfold nonempty. rewrite negb_true_iff. split.
  - intros H ->. rewrite String.eqb_refl in H. discriminate.
  - intros H. apply String.eqb_neq. exact H.
Qed.

Lemma nonempty_false s : nonempty s = false <-> s = "".
Proof.
  unfold nonempty. rewrite negb_false_iff. apply String.eqb_eq.
Qed.

(** The number of pages the calculator computes is [ceil(count / s)]. *)
Lemma totalPages_ceilDiv count s :
  is_uint64 count -> 1 <= s ->
  (if negb (wrap64 count mod s =? 0) then wrap64 (wrap64 count / s + 1)
   else wrap64 count / s) = ceilDiv count s.
Proof.
  intros Hc Hs. rewrite (wrap64_small count) by done.
  unfold ceilDiv, is_uint64, maxUint64 in *.
  pose proof (Z.div_mod count s ltac:(lia)) as Hdm.
  pose proof (Z.mod_pos_bound count s ltac:(lia)) as Hmod.
  assert (0 <= count / s) as Hq by (apply Z.div_pos; lia).
  destruct (count mod s =? 0) eqn:Hz; cbn [negb].
  - apply Z.eqb_eq in Hz.
    apply (Z.div_unique _ _ _ (s - 1)); lia.
  - apply Z.eqb_neq in Hz.
    assert (2 <= s) as Hs2 by lia.
    assert (count / s <= count / 2) as Hhalf.
    { apply Z.div_le_compat_l; lia. }
    assert (count / 2 <= 9223372036854775808) as Hmax.
    { apply Z.div_le_upper_bound; lia. }
    rewrite wrap64_small by (unfold is_uint64, maxUint64; lia).
    apply (Z.div_unique _ _ _ (count mod s - 1)); lia.
Qed.

(** What [getLinks] returns in page/size mode once both numbers parse and
    the size is not zero. *)
Lemma getLinks_page p r count info n s :
  number p <> "" -> ParseUint (number p) = inr n -> ParseUint (size p) = inr s ->
  s <> 0 ->
  let totalPages :=
    if negb (wrap64 count mod s =? 0) then wrap64 (wrap64 count / s + 1)
    else wrap64 count / s in
  let back : gmap string string :=
    if negb (String.eqb (number p) "1")
    then <["prev" := pageLink info r "page[number]" (FormatUint (wrap64 (n - 1)))]>
           (<["first" := pageLink info r "page[number]" "1"]> ∅)
    else ∅ in
  getLinks p r count info =
  Return (if negb (n =? totalPages)
          then <["last" := pageLink info r "page[number]" (FormatUint totalPages)]>
                 (<["next" := pageLink info r "page[number]"
                                (FormatUint (wrap64 (n + 1)))]> back)
          else back, None).
Proof.
  intros Hne Hn Hs Hs0. unfold getLinks, pageLink, requestURL.
  apply nonempty_true in Hne. rewrite Hne, Hn, Hs.
  apply Z.eqb_neq in Hs0. rewrite Hs0.
  destruct (negb (String.eqb (number p) "1")); cbn zeta beta iota;
    destruct (negb (n =? _)); rewrite ?Values_Set_Set; reflexivity.
Qed.

(** What [getLinks] returns in offset/limit mode once both numbers parse. *)
Lemma getLinks_offset p r count info o l :
  number p = "" -> ParseUint (offset p) = inr o -> ParseUint (limit p) = inr l ->
  let back : gmap string string :=
    if negb (String.eqb (offset p) "0")
    then <["prev" := pageLink info r "page[offset]"
                       (FormatUint (if o <? l then 0 else wrap64 (o - l)))]>
           (<["first" := pageLink info r "page[offset]" "0"]> ∅)
    else ∅ in
  getLinks p r count info =
  Return (if wrap64 (o + l) <? wrap64 count
          then <["last" := pageLink info r "page[offset]"
                             (FormatUint (wrap64 (wrap64 count - l)))]>
                 (<["next" := pageLink info r "page[offset]"
                                (FormatUint (wrap64 (o + l)))]> back)
          else back, None).
Proof.
  intros Hnum Ho Hl. unfold getLinks, pageLink, requestURL.
  apply nonempty_false in Hnum. rewrite Hnum, Ho, Hl.
  destruct (negb (String.eqb (offset p) "0")); cbn zeta beta iota;
    destruct (_ <? _); rewrite ?Values_Set_Set; reflexivity.
Qed.

Lemma FormatUint_nonempty u : FormatUint u <> "".
Proof. apply (formatBits_nonempty 19). Qed.

Lemma FormatUint_eq_iff u (v : Z) (sv : string) :
  is_uint64 u -> is_uint64 v -> sv = FormatUint v ->
  String.eqb (FormatUint u) sv = true <-> u = v.
Proof.
  intros Hu Hv ->. rewrite String.eqb_eq. split; [| congruence].
  apply FormatUint_inj; done.
Qed.

(** On a page number written in canonical decimal form and short of the
    last [uint64], [getLinks] emits [first] and [prev] exactly when the
    page is not the first, and [next] and [last] exactly when it is not the
    last of [ceil(count / s)] pages. *)
Theorem getLinks_page_canonical p r count info n s :
  number p = FormatUint n -> 1 <= n < maxUint64 ->
  ParseUint (size p) = inr s -> 1 <= s -> is_uint64 count ->
  exists links, getLinks p r count info = Return (links, None) /\
    (n <> 1 ->
       links !! "first" = Some (pageLink info r "page[number]" "1") /\
       links !! "prev" = Some (pageLink info r "page[number]" (FormatUint (n - 1)))) /\
    (n = 1 -> links !! "first" = None /\ links !! "prev" = None) /\
    (n <> ceilDiv count s ->
       links !! "next" = Some (pageLink info r "page[number]" (FormatUint (n + 1))) /\
       links !! "last" =
         Some (pageLink info r "page[number]" (FormatUint (ceilDiv count s)))) /\
    (n = ceilDiv count s -> links !! "next" = None /\ links !! "last" = None).
Proof.
  intros Hnum Hn Hs Hs1 Hc.
  assert (is_uint64 n) as Hn64 by (unfold is_uint64; lia).
  pose proof (getLinks_page p r count info n s) as Hlinks.
  rewrite Hnum in Hlinks.
  specialize (Hlinks (FormatUint_nonempty n) (ParseUint_FormatUint n Hn64)).
  rewrite <- Hnum in Hlinks. specialize (Hlinks Hs ltac:(lia)).
  cbn zeta in Hlinks. rewrite totalPages_ceilDiv in Hlinks by done.
  rewrite (wrap64_small (n - 1)), (wrap64_small (n + 1)) in Hlinks
    by (unfold is_uint64; lia).
  assert (String.eqb (number p) "1" = true <-> n = 1) as Hone.
  { rewrite Hnum. apply FormatUint_eq_iff; [done | | reflexivity].
    unfold is_uint64, maxUint64. lia. }
  destruct (Z.eq_dec n 1) as [E1 | E1];
    [ assert (String.eqb (number p) "1" = true) as H1 by (apply Hone; exact E1)
    | assert (String.eqb (number p) "1" = false) as H1
        by (apply not_true_iff_false; rewrite Hone; exact E1) ];
    rewrite H1 in Hlinks;
    destruct (Z.eqb_spec n (ceilDiv count s)) as [E2 | E2];
    cbn [negb] in Hlinks;
    (eexists; split; [exact Hlinks |]);
    repeat split; intros; try lia; simplify_map_eq; reflexivity.
Qed.

(** On an offset written in canonical decimal form with [o + l] short of
    [2^64], [getLinks] emits [first] and [prev] exactly when the offset is
    not zero, [prev] clamped at zero, and [next] and [last] exactly when
    [o + l < count]. *)
Theorem getLinks_offset_canonical p r count info o l :
  number p = "" -> offset p = FormatUint o -> is_uint64 o ->
  ParseUint (limit p) = inr l -> o + l <= maxUint64 -> is_uint64 count ->
  exists links, getLinks p r count info = Return (links, None) /\
    (o <> 0 ->
       links !! "first" = Some (pageLink info r "page[offset]" "0") /\
       links !! "prev" =
         Some (pageLink info r "page[offset]"
                 (FormatUint (if l <=? o then o - l else 0)))) /\
    (o = 0 -> links !! "first" = None /\ links !! "prev" = None) /\
    (o + l < count ->
       links !! "next" = Some (pageLink info r "page[offset]" (FormatUint (o + l))) /\
       links !! "last" =
         Some (pageLink info r "page[offset]" (FormatUint (count - l)))) /\
    (count <= o + l -> links !! "next" = None /\ links !! "last" = None).
Proof.
  intros Hnum Hoff Ho Hl Hsum Hc.
  pose proof (ParseUint_range _ _ Hl) as Hl64.
  pose proof (getLinks_offset p r count info o l Hnum) as Hlinks.
  rewrite Hoff in Hlinks. specialize (Hlinks (ParseUint_FormatUint o Ho) Hl).
  rewrite <- Hoff in Hlinks. cbn zeta in Hlinks.
  unfold is_uint64 in *.
  rewrite (wrap64_small (o + l)), (wrap64_small count) in Hlinks
    by (unfold is_uint64; lia).
  assert (String.eqb (offset p) "0" = true <-> o = 0) as Hzero.
  { rewrite Hoff. apply FormatUint_eq_iff; [done | | reflexivity].
    unfold is_uint64, maxUint64. lia. }
  assert ((if o <? l then 0 else wrap64 (o - l)) = (if l <=? o then o - l else 0))
    as Hprev.
  { destruct (Z.ltb_spec o l), (Z.leb_spec l o); try lia; try reflexivity.
    apply wrap64_small. unfold is_uint64. lia. }
  rewrite Hprev in Hlinks.
  destruct (Z.eq_dec o 0) as [E1 | E1];
    [ assert (String.eqb (offset p) "0" = true) as H0 by (apply Hzero; exact E1)
    | assert (String.eqb (offset p) "0" = false) as H0
        by (apply not_true_iff_false; rewrite Hzero; exact E1) ];
    rewrite H0 in Hlinks;
    destruct (Z.ltb_spec (o + l) count) as [E2 | E2];
    cbn [negb] in Hlinks;
    rewrite ?(wrap64_small (count - l)) in Hlinks by (unfold is_uint64; lia);
    (eexists; split; [exact Hlinks |]);
    repeat split; intros; try lia; simplify_map_eq; reflexivity.
Qed.

(** The example of 25 items in pages of 10, at page 2: the calculator
    emits first -> 1, prev -> 1, next -> 3 and last -> 3. *)
Example getLinks_page_example :
  let r := Demo.request "/v1/posts" [("page[number]", "2"); ("page[size]", "10")] "" in
  exists links,
    getLinks (newPaginationQueryParams r) r 25 Demo.noInfo = Return (links, None) /\
    links !! "first" = Some "/v1/posts?page%5Bnumber%5D=1&page%5Bsize%5D=10" /\
    links !! "prev" = Some "/v1/posts?page%5Bnumber%5D=1&page%5Bsize%5D=10" /\
    links !! "next" = Some "/v1/posts?page%5Bnumber%5D=3&page%5Bsize%5D=10" /\
    links !! "last" = Some "/v1/posts?page%5Bnumber%5D=3&page%5Bsize%5D=10".
Proof.
  intros r. exists (linksOf (getLinks (newPaginationQueryParams r) r 25 Demo.noInfo)).
  repeat split; vm_compute; reflexivity.
Qed.

(** C1: the page number is compared with ["1"] as text.  The request
    [page[number]=01&page[size]=10] names page 1, and over 25 items the
    calculator still emits [first] and [prev], the latter to page 0. *)
Theorem getLinks_page_leading_zero :
  let r := Demo.request "/v1/posts" [("page[number]", "01"); ("page[size]", "10")] "" in
  let p := newPaginationQueryParams r in
  isValid p = true /\ ParseUint (number p) = inr 1 /\ ParseUint (size p) = inr 10 /\
  exists links,
    getLinks p r 25 Demo.noInfo = Return (links, None) /\
    links !! "first" = Some "/v1/posts?page%5Bnumber%5D=1&page%5Bsize%5D=10" /\
    links !! "prev" = Some "/v1/posts?page%5Bnumber%5D=0&page%5Bsize%5D=10".
Proof.
  intros r p. repeat split; try (vm_compute; reflexivity).
  exists (linksOf (getLinks p r 25 Demo.noInfo)).
  repeat split; vm_compute; reflexivity.
Qed.

(** On the last [uint64] page number the successor wraps, and [next]
    points to page 0. *)
Lemma getLinks_page_next_wraps :
  let r := Demo.request "/v1/posts"
             [("page[number]", "18446744073709551615"); ("page[size]", "10")] "" in
  let p := newPaginationQueryParams r in
  ParseUint (number p) = inr maxUint64 /\
  exists links,
    getLinks p r 25 Demo.noInfo = Return (links, None) /\
    links !! "next" = Some "/v1/posts?page%5Bnumber%5D=0&page%5Bsize%5D=10".
Proof.
  intros r p. split; [vm_compute; reflexivity |].
  exists (linksOf (getLinks p r 25 Demo.noInfo)).
  split; vm_compute; reflexivity.
Qed.

(** The example of 10 items at offset 4 with limit 5: the calculator
    emits first -> 0, prev -> 0, next -> 9 and last -> 5. *)
Example getLinks_offset_example :
  let r := Demo.request "/v1/posts" [("page[offset]", "4"); ("page[limit]", "5")] "" in
  exists links,
    getLinks (newPaginationQueryParams r) r 10 Demo.noInfo = Return (links, None) /\
    links !! "first" = Some "/v1/posts?page%5Blimit%5D=5&page%5Boffset%5D=0" /\
    links !! "prev" = Some "/v1/posts?page%5Blimit%5D=5&page%5Boffset%5D=0" /\
    links !! "next" = Some "/v1/posts?page%5Blimit%5D=5&page%5Boffset%5D=9" /\
    links !! "last" = Some "/v1/posts?page%5Blimit%5D=5&page%5Boffset%5D=5".
Proof.
  intros r. exists (linksOf (getLinks (newPaginationQueryParams r) r 10 Demo.noInfo)).
  repeat split; vm_compute; reflexivity.
Qed.

(** C2: the offset is compared with ["0"] as text.  The request
    [page[offset]=00&page[limit]=5] has offset 0, and over 10 items the
    calculator still emits [first] and [prev]. *)
Theorem getLinks_offset_leading_zero :
  let r := Demo.request "/v1/posts" [("page[offset]", "00"); ("page[limit]", "5")] "" in
  let p := newPaginationQueryParams r in
  isValid p = true /\ ParseUint (offset p) = inr 0 /\ ParseUint (limit p) = inr 5 /\
  exists links,
    getLinks p r 10 Demo.noInfo = Return (links, None) /\
    links !! "first" = Some "/v1/posts?page%5Blimit%5D=5&page%5Boffset%5D=0" /\
    links !! "prev" = Some "/v1/posts?page%5Blimit%5D=5&page%5Boffset%5D=0".
Proof.
  intros r p. repeat split; try (vm_compute; reflexivity).
  exists (linksOf (getLinks p r 10 Demo.noInfo)).
  repeat split; vm_compute; reflexivity.
Qed.

(** The sum [o + l] wraps.  With offset [2^64 - 1] and limit 1 over 10
    items the sum is past the count, and the calculator still emits
    [next], to offset 0, and [last]. *)
Lemma getLinks_offset_sum_wraps :
  let r := Demo.request "/v1/posts"
             [("page[offset]", "18446744073709551615"); ("page[limit]", "1")] "" in
  let p := newPaginationQueryParams r in
  ParseUint (offset p) = inr maxUint64 /\ ParseUint (limit p) = inr 1 /\
  ~ maxUint64 + 1 < 10 /\
  exists links,
    getLinks p r 10 Demo.noInfo = Return (links, None) /\
    links !! "next" = Some "/v1/posts?page%5Blimit%5D=1&page%5Boffset%5D=0" /\
    links !! "last" = Some "/v1/posts?page%5Blimit%5D=1&page%5Boffset%5D=9".
Proof.
  intros r p. repeat split; try (vm_compute; reflexivity).
  - unfold maxUint64. lia.
  - exists (linksOf (getLinks p r 10 Demo.noInfo)).
    repeat split; vm_compute; reflexivity.
Qed.

(** Whenever [last] is emitted in offset/limit mode, its offset is
    [count - limit] in [uint64] arithmetic. *)
Lemma getLinks_offset_last p r count info o l v :
  number p = "" -> ParseUint (offset p) = inr o -> ParseUint (limit p) = inr l ->
  linksOf (getLinks p r count info) !! "last" = Some v ->
  v = pageLink info r "page[offset]" (FormatUint (wrap64 (wrap64 count - l))).
Proof.
  intros Hnum Ho Hl. rewrite (getLinks_offset p r count info o l Hnum Ho Hl).
  cbn [linksOf].
  destruct (wrap64 (o + l) <? wrap64 count), (negb (String.eqb (offset p) "0"));
    intros Hv; simplify_map_eq; reflexivity.
Qed.

(** C4: the offset of [last] is [count - limit] in [uint64] arithmetic
    whatever the limit, and there is a valid offset/limit request with a
    limit above the count for which [last] is emitted with that offset
    wrapped around: offset [2^64 - 2] and limit 2 over one item give
    [last] at [2^64 - 1]. *)
Theorem getLinks_last_underflow :
  (exists (r : HTTPRequest) (count l : Z) (links : gmap string string),
     let p := newPaginationQueryParams r in
     isValid p = true /\ number p = "" /\
     ParseUint (limit p) = inr l /\ is_uint64 count /\ count < l /\
     getLinks p r count Demo.noInfo = Return (links, None) /\
     links !! "last" =
       Some (pageLink Demo.noInfo r "page[offset]" (FormatUint (wrap64 (count - l)))) /\
     count - l < 0 /\ wrap64 (count - l) = 2 ^ 64 + (count - l))
  /\ (forall p r count info o l v,
        number p = "" -> ParseUint (offset p) = inr o -> ParseUint (limit p) = inr l ->
        linksOf (getLinks p r count info) !! "last" = Some v ->
        v = pageLink info r "page[offset]" (FormatUint (wrap64 (wrap64 count - l)))).
Proof.
  split; [| exact getLinks_offset_last].
  pose (r := Demo.request "/v1/posts"
               [("page[offset]", "18446744073709551614"); ("page[limit]", "2")] "").
  exists r, 1, 2, (linksOf (getLinks (newPaginationQueryParams r) r 1 Demo.noInfo)).
  cbn zeta. unfold is_uint64, maxUint64.
  repeat split; try lia; vm_compute; reflexivity.
Qed.

(** C5: the page/size computation is not total.  A page size of 0 parses
    and the division panics; a page number of 0 parses and [prev] wraps to
    page [2^64 - 1]. *)
Theorem getLinks_page_zero :
  let r := Demo.request "/v1/posts" [("page[number]", "1"); ("page[size]", "0")] "" in
  let r' := Demo.request "/v1/posts" [("page[number]", "0"); ("page[size]", "10")] "" in
  (isValid (newPaginationQueryParams r) = true /\
   ParseUint (size (newPaginationQueryParams r)) = inr 0 /\
   getLinks (newPaginationQueryParams r) r 25 Demo.noInfo
   = Panic "runtime error: integer divide by zero") /\
  (isValid (newPaginationQueryParams r') = true /\
   ParseUint (number (newPaginationQueryParams r')) = inr 0 /\
   exists links,
     getLinks (newPaginationQueryParams r') r' 25 Demo.noInfo = Return (links, None) /\
     links !! "prev"
     = Some "/v1/posts?page%5Bnumber%5D=18446744073709551615&page%5Bsize%5D=10").
Proof.
  intros r r'. repeat split; try (vm_compute; reflexivity).
  exists (linksOf (getLinks (newPaginationQueryParams r') r' 25 Demo.noInfo)).
  split; vm_compute; reflexivity.
Qed.

(** A page size of zero panics whatever the rest of the request. *)
Lemma getLinks_page_size_zero p r count info n :
  number p <> "" -> ParseUint (number p) = inr n -> ParseUint (size p) = inr 0 ->
  getLinks p r count info = Panic "runtime error: integer divide by zero".
Proof.
  intros Hne Hn Hs. unfold getLinks. apply nonempty_true in Hne.
  rewrite Hne, Hn, Hs. destruct (negb _); reflexivity.
Qed.

(** ** Validity of the pagination parameters *)

Lemma isValid_iff p :
  isValid p = true <->
  (number p <> "" /\ size p <> "" /\ offset p = "" /\ limit p = "")
  \/ (number p = "" /\ size p = "" /\ offset p <> "" /\ limit p <> "").
Proof.
  unfold isValid.
  destruct (nonempty (number p)) eqn:Hn, (nonempty (size p)) eqn:Hs,
    (nonempty (offset p)) eqn:Ho, (nonempty (limit p)) eqn:Hl; cbn;
    rewrite ?nonempty_true, ?nonempty_false in *;
    split; try discriminate; try tauto; intros _; tauto.
Qed.

(** A parameter is present when the query has it with a first value that
    is not empty. *)
Lemma present_sent (r : HTTPRequest) (key : string) :
  present r key <->
  exists value rest, URL_Query r !! key = Some (value, rest) /\ value <> "".
Proof.
  unfold present, Values_Get. destruct (URL_Query r !! key) as [[value rest] |].
  - split; [intros H; exists value, rest; split; [reflexivity | exact H] |].
    intros (v & l & [= <- <-] & H). exact H.
  - split; [intros H; contradiction H; reflexivity |].
    intros (v & l & Heq & _). discriminate.
Qed.

(** ** Handlers *)

Ltac run :=
  unfold mbind, M_bind, bind, lift, try, call, call_, respond, fail, panic, ret;
  cbn beta iota zeta.

Section HandlerProperties.
Context {R Obj S : Type} {codec : Codec Obj} {rt : Router R (Handler Obj S)}.

Lemma respondWith_eq (obj : payload Obj) info status (σ : World Obj S) :
  respondWith obj info status σ =
  match MarshalToJSONWithURLs obj info with
  | inl e => (Failed e, σ)
  | inr data =>
      (Done tt,
       {| store := store σ; calls := calls σ;
          writer := Write data (WriteHeader status
                      (Header_Set "Content-Type" "application/vnd.api+json"
                         (writer σ))) |})
  end.
Proof.
  unfold respondWith. run.
  destruct (MarshalToJSONWithURLs obj info); reflexivity.
Qed.

Lemma respondWith_calls (obj : payload Obj) info status (σ : World Obj S) :
  calls (respondWith obj info status σ).2 = calls σ
  /\ store (respondWith obj info status σ).2 = store σ.
Proof.
  rewrite respondWith_eq.
  destruct (MarshalToJSONWithURLs obj info); split; reflexivity.
Qed.

Lemma written_status data status k v w :
  w_Status w = None ->
  w_Status (Write data (WriteHeader status (Header_Set k v w))) = Some status.
Proof. intros H. cbn. rewrite H. reflexivity. Qed.


(** C7: a create request whose body decodes to one object with a
    non-empty identifier is answered by the "Forbidden" document about
    client-generated identifiers: once the codec has marshalled the
    document, status 403 and the document are written to the fresh
    response.  No method of the data source is invoked: [Create] is
    not, and the store is as before. *)
Theorem handleCreate_rejects_client_id (res : resource Obj S) (r : HTTPRequest)
    (prefix : string) (info : information) (σ : World Obj S)
    (ctx : gmap string JSON) (newObj : Obj) (id data : string) :
  unmarshalJSONRequest r = inr ctx ->
  UnmarshalInto ctx (resourceType res) [] = inr [newObj] ->
  GetID newObj = Some id -> id <> "" ->
  MarshalToJSONWithURLs (ErrorDoc clientIDForbidden) info = inr data ->
  w_Status (writer σ) = None ->
  handleCreate res r prefix info σ
  = respondWith (ErrorDoc clientIDForbidden) info StatusForbidden σ
  /\ (handleCreate res r prefix info σ).1 = Done tt
  /\ w_Status (writer (handleCreate res r prefix info σ).2) = Some StatusForbidden
  /\ w_Body (writer (handleCreate res r prefix info σ).2)
     = w_Body (writer σ) +:+ data
  /\ calls (handleCreate res r prefix info σ).2 = calls σ
  /\ store (handleCreate res r prefix info σ).2 = store σ.
Proof.
  intros Hctx Hobjs Hid Hne Hdata Hfresh.
  assert (handleCreate res r prefix info σ
          = respondWith (ErrorDoc clientIDForbidden) info StatusForbidden σ) as Heq.
  { unfold handleCreate. run. rewrite Hctx, Hobjs, Hid.
    apply nonempty_true in Hne. rewrite Hne. reflexivity. }
  split; [exact Heq |]. rewrite Heq, respondWith_eq, Hdata. cbn.
  rewrite Hfresh. repeat split; reflexivity.
Qed.



End HandlerProperties.

(** ** Linked resources *)

Section LinkedProperties.
Context {R Obj S : Type} {codec : Codec Obj} {rt : Router R (Handler Obj S)}.

Lemma findResource_Some (rs : list (resource Obj S)) fieldType t :
  findResource rs fieldType = Some t -> t ∈ rs /\ name t = fieldType.
Proof.
  induction rs as [| x rs IH]; cbn [findResource]; [discriminate |].
  destruct (String.eqb_spec (name x) fieldType) as [Heq | Hne].
  - intros [= <-]. split; [left | exact Heq].
  - intros H. destruct (IH H) as [Hin Hname]. split; [right; exact Hin | exact Hname].
Qed.

Lemma findResource_None (rs : list (resource Obj S)) fieldType :
  findResource rs fieldType = None -> forall t, t ∈ rs -> name t <> fieldType.
Proof.
  induction rs as [| x rs IH]; cbn [findResource]; intros H t Hin.
  - inversion Hin.
  - destruct (String.eqb_spec (name x) fieldType) as [Heq | Hne]; [discriminate |].
    inversion Hin; subst; [exact Hne | apply IH; assumption].
Qed.

(** A field of pointer or slice kind has an element type. *)
Lemma isLinkedField_Elem linked (field : string * reflect.Type_) :
  isLinkedField linked field = true -> exists elem, reflect.Elem field.2 = Return elem.
Proof.
  unfold isLinkedField. destruct field as [fname [n fs | n e | n e | k n]]; cbn;
    try discriminate; intros _; eexists; reflexivity.
Qed.

(** The loops of [handleLinked] stop at a field and resource that answer
    the relation, and fall through only when there is none. *)
Lemma findLinked_spec (rs : list (resource Obj S)) linked fields :
  match findLinked rs linked fields with
  | Return (Some t) => exists field, field ∈ fields /\ t ∈ rs /\ isTargetOf linked field t
  | Return None =>
      forall field t, field ∈ fields -> t ∈ rs -> ~ isTargetOf linked field t
  | Panic _ => False
  end.
Proof.
  induction fields as [| f fields IH]; cbn [findLinked].
  - intros field t Hin. inversion Hin.
  - destruct (isLinkedField linked f) eqn:Hlinked.
    + destruct (isLinkedField_Elem linked f Hlinked) as (elem & Helem).
      rewrite Helem.
      destruct (findResource rs (Pluralize (Jsonify (reflect.Name elem))))
        as [t |] eqn:Hfind.
      * apply findResource_Some in Hfind as [Hin Hname].
        exists f. split; [left |]. split; [exact Hin |].
        split; [exact Hlinked |]. exists elem. split; [exact Helem | exact Hname].
      * destruct (findLinked rs linked fields) as [[t |] | msg]; [| | exact IH].
        -- destruct IH as (field & Hin & Hrest). exists field. split; [right |]; done.
        -- intros field t Hin Ht (Hl & elem' & Helem' & Hname).
           inversion Hin; subst.
           ++ rewrite Helem in Helem'. simplify_eq.
              exact (findResource_None _ _ Hfind t Ht Hname).
           ++ eapply IH; [eassumption | exact Ht |].
              split; [exact Hl |]. exists elem'. split; assumption.
    + destruct (findLinked rs linked fields) as [[t |] | msg]; [| | exact IH].
      * destruct IH as (field & Hin & Hrest). exists field. split; [right |]; done.
      * intros field t Hin Ht Htarget. inversion Hin; subst.
        -- destruct Htarget as [Hl _]. congruence.
        -- eapply IH; eassumption.
Qed.

(** C9: for a resource whose type is a struct, if some field and some
    registered resource answer the [linked] segment, the handler stops at
    such a pair: when that resource's source has [FindAll], it is invoked
    once, with the request's query parameters plus the owning resource's
    name followed by "ID" bound to the one-element list of the instance
    identifier, and the objects go out with status 200; when it has not,
    the handler fails with 404.  If no field and resource answer, the
    "Not Found" document, whose detail ends in [linked], goes out with
    status 404 and no source is invoked. *)
Theorem handleLinked_dispatch (res : resource Obj S) (api : API R Obj S)
    (r : HTTPRequest) (ps : Params) (info : information) (σ : World Obj S)
    (tname : string) (fields : list (string * reflect.Type_)) :
  resourceType res = reflect.StructOf tname fields ->
  let id := ByName ps "id" in
  let linked := ByName ps "linked" in
  let answers field target :=
    field ∈ fields /\ target ∈ resources api /\ isTargetOf linked field target in
  ((exists field target, answers field target) ->
   exists field target, answers field target /\
     match asFindAll (source target) with
     | Some FindAll =>
         handleLinked res api r ps info σ =
         (obj ← call (CallFindAll (name target) (linkedRequest res r id))
                     (FindAll (linkedRequest res r id));
          respondWith (Data obj) info StatusOK) σ
         /\ calls (handleLinked res api r ps info σ).2
            = (calls σ ++ [CallFindAll (name target) (linkedRequest res r id)])%list
         /\ QueryParams (linkedRequest res r id)
            = <[name res +:+ "ID" := [id]]> (QueryParams (buildRequest r))
     | None =>
         handleLinked res api r ps info σ =
         (Failed (HTTPError None "Resource does not implement the FindAll interface"
                    StatusNotFound), σ)
     end)
  /\ ((~ exists field target, answers field target) ->
      handleLinked res api r ps info σ
      = respondWith (ErrorDoc (linkedNotFound linked)) info StatusNotFound σ
      /\ Detail (linkedNotFound linked)
         = "No resource handler is registered to handle the linked resource " +:+ linked
      /\ calls (handleLinked res api r ps info σ).2 = calls σ
      /\ forall data,
           MarshalToJSONWithURLs (ErrorDoc (linkedNotFound linked)) info = inr data ->
           w_Status (writer σ) = None ->
           w_Status (writer (handleLinked res api r ps info σ).2) = Some StatusNotFound
           /\ w_Body (writer (handleLinked res api r ps info σ).2)
              = w_Body (writer σ) +:+ data).
Proof.
  intros Htype id linked answers. subst id linked answers.
  set (id := ByName ps "id"). set (linked := ByName ps "linked").
  pose proof (findLinked_spec (resources api) linked fields) as Hspec.
  assert (handleLinked res api r ps info σ =
    match findLinked (resources api) linked fields with
    | Return (Some target) =>
        match asFindAll (source target) with
        | Some FindAll =>
            (obj ← call (CallFindAll (name target) (linkedRequest res r id))
                        (FindAll (linkedRequest res r id));
             respondWith (Data obj) info StatusOK) σ
        | None =>
            (Failed (HTTPError None "Resource does not implement the FindAll interface"
                       StatusNotFound), σ)
        end
    | Return None =>
        respondWith (ErrorDoc (linkedNotFound linked)) info StatusNotFound σ
    | Panic msg => (Panicked msg, σ)
    end) as Heq.
  { unfold handleLinked. rewrite Htype. unfold reflect.Fields. run.
    fold id linked.
    destruct (findLinked (resources api) linked fields)
      as [[target |] | msg]; try reflexivity.
    destruct (asFindAll (source target)); reflexivity. }
  split.
  - intros (field0 & target0 & Hin0 & Hres0 & Htarget0).
    destruct (findLinked (resources api) linked fields) as [[target |] | msg];
      [| exfalso; eapply Hspec; eassumption | contradiction].
    destruct Hspec as (field & Hin & Hres & Htarget).
    exists field, target. split; [exact (conj Hin (conj Hres Htarget)) |].
    destruct (asFindAll (source target)) as [FindAll |]; [| exact Heq].
    split; [exact Heq |]. split; [| reflexivity].
    rewrite Heq. run.
    destruct (FindAll (linkedRequest res r id) (store σ)) as [[e | obj] st];
      [reflexivity |].
    apply respondWith_calls.
  - intros Hnone.
    destruct (findLinked (resources api) linked fields) as [[target |] | msg];
      [| | contradiction].
    { exfalso. apply Hnone. destruct Hspec as (field & Hin & Hres & Htarget).
      exists field, target. exact (conj Hin (conj Hres Htarget)). }
    rewrite Heq. split; [reflexivity |]. split; [reflexivity |].
    split; [apply respondWith_calls |].
    intros data Hdata Hfresh. rewrite respondWith_eq, Hdata. cbn.
    rewrite Hfresh. split; reflexivity.
Qed.

End LinkedProperties.

(** ** The error documents *)

(** C10, as the code has it: the [Status] of the "Not Found" document of
    an unresolved relation and of the "Forbidden" document of a create
    request with a client identifier is the conversion of the status code
    to the code point of that value, the two bytes of U+0194 for 404 and
    of U+0193 for 403, and not the decimal numeral. *)
Theorem error_document_status (linked : string) :
  Status (linkedNotFound linked) = string_of_int StatusNotFound
  /\ Status (linkedNotFound linked) = String (byteOf 198) (String (byteOf 148) "")
  /\ Status (linkedNotFound linked) = "Ɣ"
  /\ Status (linkedNotFound linked) <> "404"
  /\ Status clientIDForbidden = string_of_int StatusForbidden
  /\ Status clientIDForbidden = String (byteOf 198) (String (byteOf 147) "")
  /\ Status clientIDForbidden = "Ɠ"
  /\ Status clientIDForbidden <> "403".
Proof. repeat split; try reflexivity; vm_compute; discriminate. Qed.

(** C10 as stated fails: the status strings are not the glyphs U+01A4 and
    U+0199 the claim prints for them. *)
Lemma error_document_status_glyphs :
  Status (linkedNotFound "comments") <> "Ƥ" /\ Status clientIDForbidden <> "ƙ"
  /\ "Ƥ" = string_of_int 420 /\ "ƙ" = string_of_int 409.
Proof. repeat split; vm_compute; try discriminate; reflexivity. Qed.

(** ** The registry *)

Lemma Kind_eqb_eq a b : reflect.Kind_eqb a b = true <-> a = b.
Proof.
  split.
  - destruct a as [| | | []], b as [| | | []]; cbn; intros H;
      first [reflexivity | discriminate H].
  - intros <-. destruct a as [| | | []]; reflexivity.
Qed.

Section RegistryProperties.
Context {R Obj S : Type} {codec : Codec Obj} {rt : Router R (Handler Obj S)}.

Lemma handle_Return method path (h : Handler Obj S) (g : go R) r' :
  handle method path h g = Return r' ->
  exists r, g = Return r /\ router_Handle method path h r = Return r'.
Proof. destruct g as [r | msg]; cbn; [eauto | discriminate]. Qed.

(** What a registration that returns has done. *)
Lemma addResource_Return (laws : RouterLaws rt) (api api' : API R Obj S)
    prototype source res :
  addResource api prototype source = Return (api', res) ->
  (prefix api' = prefix api)
  /\ resources api' = (resources api ++ [res])%list
  /\ (("OPTIONS", prefix api +:+ name res) ∉ routes (router api))
  /\ ("OPTIONS", prefix api +:+ name res) ∈ routes (router api')
  /\ (forall q, q ∈ routes (router api) -> q ∈ routes (router api')).
Proof.
  unfold addResource. destruct prototype as [t |]; [| discriminate].
  destruct (negb _); [discriminate |]. cbn zeta.
  set (n := Jsonify (Pluralize (reflect.Name t))).
  set (res0 := {| resourceType := t; source := source; name := n |}).
  destruct (handle "PATCH" _ _ _) as [r8 |] eqn:H8; [| discriminate].
  intros [= <- <-]. cbn [prefix resources router name].
  apply handle_Return in H8 as (r7 & H7 & E8).
  apply handle_Return in H7 as (r6 & H6 & E7).
  apply handle_Return in H6 as (r5 & H5 & E6).
  apply handle_Return in H5 as (r4 & H4 & E5).
  apply handle_Return in H4 as (r3 & H3 & E4).
  apply handle_Return in H3 as (r2 & H2 & E3).
  apply handle_Return in H2 as (r1 & H1 & E2).
  apply handle_Return in H1 as (r0 & H0 & E1).
  injection H0 as <-.
  assert (forall q, q ∈ routes (router api) -> q ∈ routes r8) as Hkeep.
  { intros q Hq.
    eapply (Handle_keeps rt laws); [exact E8 |].
    eapply (Handle_keeps rt laws); [exact E7 |].
    eapply (Handle_keeps rt laws); [exact E6 |].
    eapply (Handle_keeps rt laws); [exact E5 |].
    eapply (Handle_keeps rt laws); [exact E4 |].
    eapply (Handle_keeps rt laws); [exact E3 |].
    eapply (Handle_keeps rt laws); [exact E2 |].
    eapply (Handle_keeps rt laws); [exact E1 |]. exact Hq. }
  repeat split; [| | exact Hkeep].
  - intros Hin. destruct (Handle_conflict rt laws _ _
      (OptionsHandler "GET,POST,PATCH,OPTIONS") _ Hin) as (msg & Hmsg).
    cbn [name res0] in Hmsg. rewrite Hmsg in E1. discriminate.
  - eapply (Handle_keeps rt laws); [exact E8 |].
    eapply (Handle_keeps rt laws); [exact E7 |].
    eapply (Handle_keeps rt laws); [exact E6 |].
    eapply (Handle_keeps rt laws); [exact E5 |].
    eapply (Handle_keeps rt laws); [exact E4 |].
    eapply (Handle_keeps rt laws); [exact E3 |].
    eapply (Handle_keeps rt laws); [exact E2 |].
    eapply (Handle_registers rt laws). exact E1.
Qed.

(** Registrations keep the registry's routes and the names apart. *)
Lemma AddResources_inv (laws : RouterLaws rt) l : forall (api api' : API R Obj S),
  registryInv api -> NoDup (name <$> resources api) ->
  AddResources api l = Return api' ->
  registryInv api' /\ NoDup (name <$> resources api').
Proof.
  induction l as [| [prototype source] l IH]; intros api api' Hinv Hnodup;
    cbn [AddResources].
  - intros [= <-]. split; assumption.
  - unfold AddResource.
    destruct (addResource api prototype source) as [[api1 res] |] eqn:Hadd;
      [| discriminate].
    destruct (addResource_Return laws _ _ _ _ _ Hadd)
      as (Hprefix & Hres & Hfresh & Hnew & Hkeep).
    apply IH.
    + intros x Hx. rewrite Hprefix. rewrite Hres in Hx.
      apply elem_of_app in Hx as [Hx | Hx].
      * apply Hkeep, Hinv, Hx.
      * apply list_elem_of_singleton in Hx as ->. exact Hnew.
    + rewrite Hres, fmap_app. apply NoDup_app. split; [exact Hnodup |].
      split; [| apply NoDup_singleton].
      intros x Hx Hx'. apply list_elem_of_singleton in Hx' as ->.
      apply list_elem_of_fmap in Hx as (old & Hname & Hold).
      apply Hfresh. rewrite Hname. apply Hinv, Hold.
Qed.

(** C8: with a router that refuses a method and path registered twice,
    the names of the resources registered from an API with an empty
    registry on, as [NewAPI] and [NewAPIWithBaseURL] return it, are all
    different; registering a type whose derived name is already in the
    registry panics, and so does registering a prototype that is no
    struct. *)
Theorem addResource_unique_names (laws : RouterLaws rt) (api0 : API R Obj S)
    (l : list (option reflect.Type_ * CRUD Obj S)) (api : API R Obj S) :
  resources api0 = [] ->
  AddResources api0 l = Return api ->
  NoDup (name <$> resources api)
  /\ (forall t source,
        Jsonify (Pluralize (reflect.Name t)) ∈ (name <$> resources api) ->
        exists msg, addResource api (Some t) source = Panic msg)
  /\ (forall prototype source,
        (forall t, prototype = Some t -> reflect.Kind_of t <> reflect.Struct) ->
        exists msg, addResource api prototype source = Panic msg).
Proof.
  intros Hfresh Hreg.
  destruct (AddResources_inv laws l api0 api) as [Hinv Hnodup].
  { intros res Hres. rewrite Hfresh in Hres. inversion Hres. }
  { rewrite Hfresh. apply NoDup_nil_2. }
  { exact Hreg. }
  split; [exact Hnodup |]. split.
  - intros t source Hname. unfold addResource.
    destruct (negb _); [eexists; reflexivity |]. cbn zeta.
    apply list_elem_of_fmap in Hname as (old & Hname & Hold).
    pose proof (Hinv old Hold) as Hroute. rewrite <- Hname in Hroute.
    destruct (Handle_conflict rt laws _ _
      (OptionsHandler "GET,POST,PATCH,OPTIONS") _ Hroute) as (msg & Hmsg).
    exists msg. cbn [handle]. rewrite Hmsg. reflexivity.
  - intros prototype source Hkind. unfold addResource.
    destruct prototype as [t |]; [| eexists; reflexivity].
    destruct (reflect.Kind_eqb (reflect.Kind_of t) reflect.Struct) eqn:Hk.
    + apply Kind_eqb_eq in Hk. exfalso. exact (Hkind t eq_refl Hk).
    + cbn [negb]. eexists. reflexivity.
Qed.

End RegistryProperties.

(** The list router of the instance keeps the contract. *)
Lemma Demo_router_laws : RouterLaws Demo.router.
Proof.
  assert (forall q (r : list (string * string)),
            existsb (Demo.route_eqb q) r = true <-> q ∈ r) as Hmem.
  { intros q r. rewrite existsb_exists. split.
    - intros (x & Hin & Heq). unfold Demo.route_eqb in Heq.
      apply andb_true_iff in Heq as [H1 H2].
      apply String.eqb_eq in H1, H2. destruct q, x; cbn in *; subst.
      apply list_elem_of_In, Hin.
    - intros Hin. exists q. split; [apply list_elem_of_In, Hin |].
      unfold Demo.route_eqb. rewrite !String.eqb_refl. reflexivity. }
  split; cbn.
  - intros m p h r r'. destruct (existsb _ r); [discriminate |].
    intros [= <-]. left.
  - intros m p h r r' q. destruct (existsb _ r); [discriminate |].
    intros [= <-] Hq. right. exact Hq.
  - intros m p h r Hin. apply Hmem in Hin. rewrite Hin. eexists. reflexivity.
Qed.

(** ** The theorems at the instance *)



(** A create request that sends the identifier 1. *)
Lemma handleCreate_rejects_client_id_witness :
  let r := Demo.request "/v1/posts" [] "{data:{id:1,type:posts,title:new}}" in
  let σ := Demo.world [("1", "old")] in
  handleCreate Demo.posts r "/v1/" Demo.noInfo σ
  = respondWith (ErrorDoc clientIDForbidden) Demo.noInfo StatusForbidden σ
  /\ (handleCreate Demo.posts r "/v1/" Demo.noInfo σ).1 = Done tt
  /\ w_Status (writer (handleCreate Demo.posts r "/v1/" Demo.noInfo σ).2)
     = Some StatusForbidden
  /\ w_Body (writer (handleCreate Demo.posts r "/v1/" Demo.noInfo σ).2)
     = w_Body (writer σ) +:+ "{errors:Client generated IDs are not supported.}"
  /\ calls (handleCreate Demo.posts r "/v1/" Demo.noInfo σ).2 = calls σ
  /\ store (handleCreate Demo.posts r "/v1/" Demo.noInfo σ).2 = store σ.
Proof.
  intros r σ.
  apply (handleCreate_rejects_client_id Demo.posts r "/v1/" Demo.noInfo σ
           {["data" := JObject (<["id" := JString "1"]>
                                 (<["type" := JString "posts"]>
                                  {["title" := JString "new"]}))]}
           (Demo.One "1" "new") "1").
  - reflexivity.
  - vm_compute. reflexivity.
  - reflexivity.
  - discriminate.
  - reflexivity.
  - reflexivity.
Defined.

Lemma AddResources_demo :
  AddResources (NewAPI "v1") Demo.registrations = Return Demo.api.
Proof. reflexivity. Qed.

(** The registry after posts, comments and users. *)
Lemma addResource_unique_names_witness :
  NoDup (name <$> resources Demo.api)
  /\ (forall t source,
        Jsonify (Pluralize (reflect.Name t)) ∈ (name <$> resources Demo.api) ->
        exists msg, addResource Demo.api (Some t) source = Panic msg)
  /\ (forall prototype source,
        (forall t, prototype = Some t -> reflect.Kind_of t <> reflect.Struct) ->
        exists msg, addResource Demo.api prototype source = Panic msg).
Proof.
  apply (addResource_unique_names Demo_router_laws (NewAPI "v1")
           Demo.registrations Demo.api).
  - reflexivity.
  - reflexivity.
Defined.

(** The comments of post 1. *)
Lemma handleLinked_dispatch_witness :
  let r := Demo.request "/v1/posts/1/comments" [] "" in
  let ps := [("id", "1"); ("linked", "comments")] in
  let σ := Demo.world [("1", "old")] in
  let answers field target :=
    field ∈ [("ID", reflect.PlainOf reflect.String_ "string");
             ("Title", reflect.PlainOf reflect.String_ "string");
             ("Comments", reflect.SliceOf "" Demo.Comment);
               ("Author", reflect.PtrTo "" Demo.User)]
    /\ target ∈ resources Demo.api /\ isTargetOf "comments" field target in
  ((exists field target, answers field target) ->
   exists field target, answers field target /\
     match asFindAll (source target) with
     | Some FindAll =>
         handleLinked Demo.posts Demo.api r ps Demo.noInfo σ =
         (obj ← call (CallFindAll (name target) (linkedRequest Demo.posts r "1"))
                     (FindAll (linkedRequest Demo.posts r "1"));
          respondWith (Data obj) Demo.noInfo StatusOK) σ
         /\ calls (handleLinked Demo.posts Demo.api r ps Demo.noInfo σ).2
            = (calls σ ++ [CallFindAll (name target) (linkedRequest Demo.posts r "1")])%list
         /\ QueryParams (linkedRequest Demo.posts r "1")
            = <[name Demo.posts +:+ "ID" := ["1"]]> (QueryParams (buildRequest r))
     | None =>
         handleLinked Demo.posts Demo.api r ps Demo.noInfo σ =
         (Failed (HTTPError None "Resource does not implement the FindAll interface"
                    StatusNotFound), σ)
     end)
  /\ ((~ exists field target, answers field target) ->
      handleLinked Demo.posts Demo.api r ps Demo.noInfo σ
      = respondWith (ErrorDoc (linkedNotFound "comments")) Demo.noInfo StatusNotFound σ
      /\ Detail (linkedNotFound "comments")
         = "No resource handler is registered to handle the linked resource "
           +:+ "comments"
      /\ calls (handleLinked Demo.posts Demo.api r ps Demo.noInfo σ).2 = calls σ
      /\ forall data,
           MarshalToJSONWithURLs (ErrorDoc (linkedNotFound "comments")) Demo.noInfo
           = inr data ->
           w_Status (writer σ) = None ->
           w_Status (writer (handleLinked Demo.posts Demo.api r ps Demo.noInfo σ).2)
           = Some StatusNotFound
           /\ w_Body (writer (handleLinked Demo.posts Demo.api r ps Demo.noInfo σ).2)
              = w_Body (writer σ) +:+ data).
Proof.
  intros r ps σ.
  apply (handleLinked_dispatch Demo.posts Demo.api r ps Demo.noInfo σ "Post").
  reflexivity.
Defined.

(** The instance at work: posts/1/comments reaches [FindAll] of the
    comments with [postsID] bound to ["1"], and posts/1/author, whose
    target has no [FindAll], fails with 404, as does an unknown relation. *)
Example handleLinked_demo :
  let r := Demo.request "/v1/posts/1/comments" [] "" in
  let σ := Demo.world [("1", "old")] in
  let run linked :=
    handleLinked Demo.posts Demo.api r [("id", "1"); ("linked", linked)] Demo.noInfo σ in
  calls (run "comments").2 = [CallFindAll "comments" (linkedRequest Demo.posts r "1")]
  /\ QueryParams (linkedRequest Demo.posts r "1") !! "postsID" = Some ["1"]
  /\ w_Status (writer (run "comments").2) = Some StatusOK
  /\ (run "author").1
     = Failed (HTTPError None "Resource does not implement the FindAll interface"
                 StatusNotFound)
  /\ calls (run "tags").2 = []
  /\ w_Status (writer (run "tags").2) = Some StatusNotFound
  /\ w_Body (writer (run "tags").2)
     = "{errors:No resource handler is registered to handle the linked resource tags}".
Proof. repeat split; vm_compute; reflexivity. Qed.

Lemma Demo_resources : resources Demo.api = [Demo.posts; Demo.comments; Demo.users].
Proof. reflexivity. Qed.

(** C9 as stated fails: posts/1/author is answered by the field [Author]
    and the registered resource users, whose source has no [FindAll]; no
    method is invoked and the handler fails with 404. *)
Lemma handleLinked_target_without_FindAll :
  let r := Demo.request "/v1/posts/1/author" [] "" in
  let ps := [("id", "1"); ("linked", "author")] in
  let σ := Demo.world [("1", "old")] in
  (("Author", reflect.PtrTo "" Demo.User) ∈ [("ID", reflect.PlainOf reflect.String_ "string");
       ("Title", reflect.PlainOf reflect.String_ "string");
       ("Comments", reflect.SliceOf "" Demo.Comment);
         ("Author", reflect.PtrTo "" Demo.User)]
   /\ Demo.users ∈ resources Demo.api
   /\ isTargetOf "author" ("Author", reflect.PtrTo "" Demo.User) Demo.users
   /\ asFindAll (source Demo.users) = None)
  /\ handleLinked Demo.posts Demo.api r ps Demo.noInfo σ =
     (Failed (HTTPError None "Resource does not implement the FindAll interface"
                StatusNotFound), σ)
  /\ calls (handleLinked Demo.posts Demo.api r ps Demo.noInfo σ).2 = [].
Proof.
  intros r ps σ. repeat split.
  - repeat constructor.
  - rewrite Demo_resources. repeat constructor.
  - exists Demo.User. split; reflexivity.
Qed.

(** Page 2 of 25 items in pages of 10. *)
Lemma getLinks_page_canonical_witness :
  let r := Demo.request "/v1/posts" [("page[number]", "2"); ("page[size]", "10")] "" in
  let p := newPaginationQueryParams r in
  exists links, getLinks p r 25 Demo.noInfo = Return (links, None) /\
    (2 <> 1 ->
       links !! "first" = Some (pageLink Demo.noInfo r "page[number]" "1") /\
       links !! "prev" = Some (pageLink Demo.noInfo r "page[number]" (FormatUint (2 - 1)))) /\
    (2 = 1 -> links !! "first" = None /\ links !! "prev" = None) /\
    (2 <> ceilDiv 25 10 ->
       links !! "next" = Some (pageLink Demo.noInfo r "page[number]" (FormatUint (2 + 1))) /\
       links !! "last" =
         Some (pageLink Demo.noInfo r "page[number]" (FormatUint (ceilDiv 25 10)))) /\
    (2 = ceilDiv 25 10 -> links !! "next" = None /\ links !! "last" = None).
Proof.
  intros r p.
  apply (getLinks_page_canonical p r 25 Demo.noInfo 2 10).
  - reflexivity.
  - unfold maxUint64. lia.
  - reflexivity.
  - lia.
  - unfold is_uint64, maxUint64. lia.
Defined.

(** Offset 4 with limit 5 over 10 items. *)
Lemma getLinks_offset_canonical_witness :
  let r := Demo.request "/v1/posts" [("page[offset]", "4"); ("page[limit]", "5")] "" in
  let p := newPaginationQueryParams r in
  exists links, getLinks p r 10 Demo.noInfo = Return (links, None) /\
    (4 <> 0 ->
       links !! "first" = Some (pageLink Demo.noInfo r "page[offset]" "0") /\
       links !! "prev" =
         Some (pageLink Demo.noInfo r "page[offset]"
                 (FormatUint (if 5 <=? 4 then 4 - 5 else 0)))) /\
    (4 = 0 -> links !! "first" = None /\ links !! "prev" = None) /\
    (4 + 5 < 10 ->
       links !! "next" = Some (pageLink Demo.noInfo r "page[offset]" (FormatUint (4 + 5))) /\
       links !! "last" =
         Some (pageLink Demo.noInfo r "page[offset]" (FormatUint (10 - 5)))) /\
    (10 <= 4 + 5 -> links !! "next" = None /\ links !! "last" = None).
Proof.
  intros r p.
  apply (getLinks_offset_canonical p r 10 Demo.noInfo 4 5).
  - reflexivity.
  - reflexivity.
  - unfold is_uint64, maxUint64. lia.
  - reflexivity.
  - unfold maxUint64. lia.
  - unfold is_uint64, maxUint64. lia.
Defined.

(** ** Further properties of the link calculator *)

(** The links [getLinks] returns: [first] and [prev] or neither, then
    [next] and [last] or neither, each the request's URL with the mode's
    key replaced. *)
Lemma getLinks_shape p r count info links err :
  getLinks p r count info = Return (links, err) ->
  exists (back fwd : bool) (vp vn vl : string),
    links =
      (if fwd
       then fun m => <["last" := pageLink info r (linkKey p) vl]>
                       (<["next" := pageLink info r (linkKey p) vn]> m)
       else fun m => m)
        (if back
         then <["prev" := pageLink info r (linkKey p) vp]>
                (<["first" := pageLink info r (linkKey p)
                                (if nonempty (number p) then "1" else "0")]> ∅)
         else ∅)
    /\ (err <> None -> fwd = false).
Proof.
  unfold getLinks, linkKey, pageLink, requestURL.
  destruct (nonempty (number p)).
  - destruct (ParseUint (number p)) as [e | n].
    { intros [= <- <-]. exists false, false, "", "", "". split; [reflexivity | done]. }
    destruct (negb (String.eqb (number p) "1")); cbn zeta beta iota.
    + destruct (ParseUint (size p)) as [e | s].
      { intros [= <- <-]. rewrite ?Values_Set_Set.
        eexists true, false, _, "", "". split; [reflexivity | done]. }
      destruct (s =? 0); [discriminate |].
      destruct (negb (n =? _)); intros [= <- <-]; rewrite ?Values_Set_Set.
      * eexists true, true, _, _, _. split; [reflexivity | done].
      * eexists true, false, _, "", "". split; [reflexivity | done].
    + destruct (ParseUint (size p)) as [e | s].
      { intros [= <- <-]. exists false, false, "", "", "". split; [reflexivity | done]. }
      destruct (s =? 0); [discriminate |].
      destruct (negb (n =? _)); intros [= <- <-]; rewrite ?Values_Set_Set.
      * eexists false, true, "", _, _. split; [reflexivity | done].
      * exists false, false, "", "", "". split; [reflexivity | done].
  - destruct (ParseUint (offset p)) as [e | o].
    { intros [= <- <-]. exists false, false, "", "", "". split; [reflexivity | done]. }
    destruct (ParseUint (limit p)) as [e | l].
    { intros [= <- <-]. exists false, false, "", "", "". split; [reflexivity | done]. }
    destruct (negb (String.eqb (offset p) "0")); cbn zeta beta iota;
      destruct (_ <? _); intros [= <- <-]; rewrite ?Values_Set_Set.
    + eexists true, true, _, _, _. split; [reflexivity | done].
    + eexists true, false, _, "", "". split; [reflexivity | done].
    + eexists false, true, "", _, _. split; [reflexivity | done].
    + exists false, false, "", "", "". split; [reflexivity | done].
Qed.

(** Links come in pairs.  Whenever [getLinks] returns, with or without
    an error, [first] is there exactly when [prev] is and [next] exactly
    when [last] is, no other relation is there, and an error comes with
    neither [next] nor [last]. *)
Theorem getLinks_link_pairs p r count info links err :
  getLinks p r count info = Return (links, err) ->
  (is_Some (links !! "first") <-> is_Some (links !! "prev"))
  /\ (is_Some (links !! "next") <-> is_Some (links !! "last"))
  /\ (forall rel, is_Some (links !! rel) ->
        rel = "first" \/ rel = "prev" \/ rel = "next" \/ rel = "last")
  /\ (err <> None -> links !! "next" = None /\ links !! "last" = None).
Proof.
  intros Hget.
  destruct (getLinks_shape _ _ _ _ _ _ Hget) as (back & fwd & vp & vn & vl & -> & Herr).
  assert (forall m : gmap string string, (fun m => m) m = m) as Hid by reflexivity.
  repeat split.
  - destruct back, fwd; intros [v Hv]; simplify_map_eq; eauto.
  - destruct back, fwd; intros [v Hv]; simplify_map_eq; eauto.
  - destruct back, fwd; intros [v Hv]; simplify_map_eq; eauto.
  - destruct back, fwd; intros [v Hv]; simplify_map_eq; eauto.
  - intros rel [v Hv].
    destruct (decide (rel = "first")), (decide (rel = "prev")),
      (decide (rel = "next")), (decide (rel = "last")); auto.
    exfalso. destruct back, fwd; simplify_map_eq.
  - rewrite (Herr H). destruct back; reflexivity.
  - rewrite (Herr H). destruct back; reflexivity.
Qed.

Lemma requestURL_baseURL info r : requestURL info r = baseURL info +:+ URL_Path r.
Proof.
  unfold requestURL, GetBaseURL.
  destruct (nonempty (baseURL info)) eqn:H; [reflexivity |].
  apply nonempty_false in H. rewrite H. reflexivity.
Qed.

(** Every link [getLinks] returns is the configured base URL followed by
    the request's path, a question mark and the encoding of a query that
    binds the mode's key, [page[number]] or [page[offset]], to one value
    and agrees with the request's query on every other key. *)
Theorem getLinks_link_keeps_query p r count info links err rel link :
  getLinks p r count info = Return (links, err) ->
  links !! rel = Some link ->
  exists (query : Values) (value : string),
    link = (baseURL info +:+ URL_Path r) +:+ "?" +:+ Values_Encode query
    /\ query !! linkKey p = Some (value, [])
    /\ forall key, key <> linkKey p -> query !! key = URL_Query r !! key.
Proof.
  intros Hget Hrel.
  destruct (getLinks_shape _ _ _ _ _ _ Hget) as (back & fwd & vp & vn & vl & -> & _).
  assert (forall v, exists (query : Values) (value : string),
            pageLink info r (linkKey p) v
            = (baseURL info +:+ URL_Path r) +:+ "?" +:+ Values_Encode query
            /\ query !! linkKey p = Some (value, [])
            /\ forall key, key <> linkKey p -> query !! key = URL_Query r !! key)
    as Hlink.
  { intros v. exists (Values_Set (URL_Query r) (linkKey p) v), v.
    unfold pageLink, linkTo, Values_Set. rewrite requestURL_baseURL.
    split; [reflexivity |]. split; [apply lookup_insert_eq |].
    intros key Hkey. apply lookup_insert_ne. congruence. }
  destruct (decide (rel = "first")), (decide (rel = "prev")),
    (decide (rel = "next")), (decide (rel = "last"));
    destruct back, fwd; simplify_map_eq; apply Hlink.
Qed.

(** When [getLinks] returns, fails or panics.  In page/size mode it
    returns links without error exactly when both numbers parse and the
    size is not zero, panics exactly when both parse and the size is zero,
    and otherwise returns the error of the first number that does not
    parse, page[number] before page[size]; in offset/limit mode it never
    panics and returns the error of page[offset] before that of
    page[limit], with no link at all. *)
Theorem getLinks_outcome p r count info :
  match getLinks p r count info with
  | Return (links, None) =>
      if nonempty (number p)
      then exists n s, ParseUint (number p) = inr n /\ ParseUint (size p) = inr s
                       /\ s <> 0
      else exists o l, ParseUint (offset p) = inr o /\ ParseUint (limit p) = inr l
  | Return (links, Some err) =>
      if nonempty (number p)
      then (ParseUint (number p) = inl err /\ links = ∅)
           \/ (exists n, ParseUint (number p) = inr n) /\ ParseUint (size p) = inl err
      else links = ∅
           /\ (ParseUint (offset p) = inl err
               \/ (exists o, ParseUint (offset p) = inr o)
                  /\ ParseUint (limit p) = inl err)
  | Panic _ =>
      nonempty (number p) = true
      /\ (exists n, ParseUint (number p) = inr n) /\ ParseUint (size p) = inr 0
  end.
Proof.
  unfold getLinks. destruct (nonempty (number p)) eqn:Hmode.
  - destruct (ParseUint (number p)) as [e | n]; [left; done |].
    destruct (negb (String.eqb (number p) "1")); cbn zeta beta iota;
      (destruct (ParseUint (size p)) as [e | s]; [right; eauto |]);
      (destruct (Z.eqb_spec s 0) as [-> | Hs]; [eauto |]);
      destruct (negb (n =? _)); exists n, s; done.
  - destruct (ParseUint (offset p)) as [e | o]; [split; [reflexivity | left; done] |].
    destruct (ParseUint (limit p)) as [e | l]; [split; [reflexivity | right; eauto] |].
    destruct (negb (String.eqb (offset p) "0")); cbn zeta beta iota;
      destruct (_ <? _); exists o, l; done.
Qed.

(** In offset/limit mode [prev] never wraps: whenever it is emitted its
    offset is [o - l] clamped at zero, which is at most [o], for every
    offset and limit the parser accepts. *)
Theorem getLinks_prev_clamped p r count info links err o l link :
  number p = "" -> ParseUint (offset p) = inr o -> ParseUint (limit p) = inr l ->
  getLinks p r count info = Return (links, err) ->
  links !! "prev" = Some link ->
  link = pageLink info r "page[offset]" (FormatUint (Z.max 0 (o - l)))
  /\ 0 <= Z.max 0 (o - l) <= o
  /\ links !! "first" = Some (pageLink info r "page[offset]" "0").
Proof.
  intros Hnum Ho Hl Hget Hprev.
  pose proof (ParseUint_range _ _ Ho) as Ho64.
  pose proof (ParseUint_range _ _ Hl) as Hl64.
  rewrite (getLinks_offset p r count info o l Hnum Ho Hl) in Hget.
  injection Hget as <- <-.
  assert ((if o <? l then 0 else wrap64 (o - l)) = Z.max 0 (o - l)) as Hclamp.
  { destruct (Z.ltb_spec o l); [lia |].
    rewrite wrap64_small by (unfold is_uint64 in *; lia). lia. }
  rewrite Hclamp in Hprev.
  split; [| split; [unfold is_uint64 in *; lia |]];
    destruct (wrap64 (o + l) <? wrap64 count), (negb (String.eqb (offset p) "0"));
    simplify_map_eq; reflexivity.
Qed.

(** ** Splitting at commas *)

Lemma Split_comma_nonempty s : Split_comma s <> [].
Proof.
  destruct s as [| c s]; cbn [Split_comma]; [discriminate |].
  destruct (Ascii.eqb c ","); [discriminate |].
  destruct (Split_comma s); discriminate.
Qed.

(** Joining the parts with commas gives the string back. *)
Lemma Join_Split_comma s : Join_comma (Split_comma s) = s.
Proof.
  induction s as [| c s IH]; [reflexivity |]. cbn [Split_comma].
  destruct (Ascii.eqb_spec c ","%char) as [-> | Hc].
  - pose proof (Split_comma_nonempty s) as Hne.
    destruct (Split_comma s) as [| h t]; [contradiction |].
    cbn [Join_comma] in *. rewrite IH. reflexivity.
  - pose proof (Split_comma_nonempty s) as Hne.
    destruct (Split_comma s) as [| h t]; [contradiction |].
    destruct t; cbn [Join_comma] in *; rewrite <- IH; reflexivity.
Qed.

Lemma Split_comma_no_comma s : Forall (fun x => hasComma x = false) (Split_comma s).
Proof.
  induction s as [| c s IH]; cbn [Split_comma].
  - constructor; [reflexivity | constructor].
  - destruct (Ascii.eqb c ","%char) eqn:Hc.
    + constructor; [reflexivity | exact IH].
    + destruct (Split_comma s) as [| h t]; [constructor; [cbn; rewrite Hc |]; done |].
      inversion IH; subst. constructor; [cbn; rewrite Hc; assumption | assumption].
Qed.

Lemma Split_comma_plain s : hasComma s = false -> Split_comma s = [s].
Proof.
  induction s as [| c s IH]; [reflexivity |]. cbn [hasComma Split_comma].
  destruct (Ascii.eqb c ","%char); [discriminate |]. cbn [orb].
  intros H. rewrite (IH H). reflexivity.
Qed.

(** Splitting what was joined gives the parts back, when no part holds a
    comma. *)
Lemma Split_Join_comma l :
  l <> [] -> Forall (fun x => hasComma x = false) l ->
  Split_comma (Join_comma l) = l.
Proof.
  induction l as [| x l IH]; [contradiction |]. intros _ Hall.
  inversion Hall as [| ? ? Hx Hl]; subst.
  destruct l as [| y l]; [apply Split_comma_plain, Hx |].
  specialize (IH ltac:(discriminate) Hl).
  change (Join_comma (x :: y :: l)) with (x +:+ "," +:+ Join_comma (y :: l)).
  clear Hall Hl. revert Hx. induction x as [| c x IHx]; intros Hx.
  - change ("" +:+ "," +:+ Join_comma (y :: l))
      with (String ","%char (Join_comma (y :: l))).
    cbn [Split_comma]. change (Ascii.eqb ","%char ","%char) with true.
    cbn iota. rewrite IH. reflexivity.
  - cbn [hasComma] in Hx. destruct (Ascii.eqb c ","%char) eqn:Hc; [discriminate |].
    cbn [orb] in Hx.
    change (String c x +:+ "," +:+ Join_comma (y :: l))
      with (String c (x +:+ "," +:+ Join_comma (y :: l))).
    cbn [Split_comma]. rewrite Hc, (IHx Hx). reflexivity.
Qed.

(** ** The per-call request *)

(** [buildRequest] keeps the keys of the query.  A key's parameter is the
    first value sent for it, cut at its commas: at least one part, no
    comma in any part, and the parts joined by commas give the value back.
    Further values sent for the same key are dropped, and the plain request
    and the headers are passed on. *)
Theorem buildRequest_QueryParams (r : HTTPRequest) (key : string) :
  match URL_Query r !! key with
  | None => QueryParams (buildRequest r) !! key = None
  | Some (value, rest) =>
      exists parts,
        QueryParams (buildRequest r) !! key = Some parts
        /\ parts <> []
        /\ Forall (fun x => hasComma x = false) parts
        /\ Join_comma parts = value
        /\ (hasComma value = false -> parts = [value])
  end
  /\ PlainRequest (buildRequest r) = r
  /\ Header (buildRequest r) = r_Header r.
Proof.
  split; [| split; reflexivity].
  unfold buildRequest. cbn [QueryParams].
  destruct (URL_Query r !! key) as [[value rest] |] eqn:Hq; unfold Values in Hq.
  - exists (Split_comma value). rewrite lookup_fmap, Hq.
    split; [reflexivity |]. split; [apply Split_comma_nonempty |].
    split; [apply Split_comma_no_comma |]. split; [apply Join_Split_comma |].
    apply Split_comma_plain.
  - rewrite lookup_fmap, Hq. reflexivity.
Qed.

(** ** What the handlers invoke *)

Section CallProperties.
Context {R Obj S : Type} {codec : Codec Obj} {rt : Router R (Handler Obj S)}.

Lemma quiet_bind {A B} (m : M (World Obj S) A) (k : A -> M (World Obj S) B) :
  quiet m -> (forall a, quiet (k a)) -> quiet (m ≫= k).
Proof.
  intros Hm Hk σ. unfold mbind, M_bind, bind.
  destruct (Hm σ) as [Hc Hs]. destruct (m σ) as [[a | e | msg] σ']; cbn in *;
    [| split; assumption..].
  destruct (Hk a σ') as [Hc' Hs']. split; congruence.
Qed.

Lemma quiet_try {A} (x : error + A) : quiet (try x : M (World Obj S) A).
Proof. intros σ. destruct x; split; reflexivity. Qed.

Lemma quiet_lift {A} (g : go A) : quiet (lift g : M (World Obj S) A).
Proof. intros σ. destruct g; split; reflexivity. Qed.

Lemma quiet_fail {A} e : quiet (fail e : M (World Obj S) A).
Proof. intros σ. split; reflexivity. Qed.

Lemma quiet_panic {A} msg : quiet (panic msg : M (World Obj S) A).
Proof. intros σ. split; reflexivity. Qed.

Lemma quiet_respond f : quiet (respond f : M (World Obj S) unit).
Proof. intros σ. split; reflexivity. Qed.

Lemma quiet_respondWith (obj : payload Obj) info status :
  quiet (respondWith obj info status : M (World Obj S) unit).
Proof. intros σ. apply respondWith_calls. Qed.

Lemma quiet_respondWithPagination (obj : payload Obj) info status links :
  quiet (respondWithPagination obj info status links : M (World Obj S) unit).
Proof.
  unfold respondWithPagination.
  apply quiet_bind; [apply quiet_try |]. intros data.
  apply quiet_bind; [apply quiet_try |]. intros result.
  apply quiet_bind; [apply quiet_respond |]. intros _.
  apply quiet_bind; [apply quiet_respond |]. intros _. apply quiet_respond.
Qed.

(** A call followed by quiet steps logs that call and no other. *)
Lemma calls_call_bind {A B} (c : Call Obj) (f : S -> (error + A) * S)
    (k : A -> M (World Obj S) B) (σ : World Obj S) :
  (forall a, quiet (k a)) ->
  calls ((call c f ≫= k) σ).2 = (calls σ ++ [c])%list.
Proof.
  intros Hk. unfold mbind, M_bind, bind, call.
  destruct (f (store σ)) as [[e | a] st]; [reflexivity |].
  apply Hk.
Qed.

Lemma calls_call__bind {B} (c : Call Obj) (f : S -> option error * S)
    (k : unit -> M (World Obj S) B) (σ : World Obj S) :
  (forall a, quiet (k a)) ->
  calls ((call_ c f ≫= k) σ).2 = (calls σ ++ [c])%list.
Proof.
  intros Hk. unfold mbind, M_bind, bind, call_.
  destruct (f (store σ)) as [[e |] st]; [reflexivity |].
  apply Hk.
Qed.

(** The GET handlers only read, and at most once: whatever the request,
    the calls [handleIndex], [handleRead] and [handleLinked] add to the log
    are none or one, a [FindAll], [FindOne], [FindMultiple] or
    [PaginatedFindAll]; [Create], [Update] and [Delete] are never
    invoked. *)
Theorem get_handlers_read_only (res : resource Obj S) (api : API R Obj S)
    (r : HTTPRequest) (ps : Params) (info : information) (σ : World Obj S) :
  let once (σ' : World Obj S) :=
    exists new, calls σ' = (calls σ ++ new)%list
                /\ (length new <= 1)%nat /\ Forall (fun c => isRead c = true) new in
  once (handleIndex res r info σ).2
  /\ once (handleRead res r ps info σ).2
  /\ once (handleLinked res api r ps info σ).2.
Proof.
  cbn zeta.
  assert (forall (σ' : World Obj S), calls σ' = calls σ ->
            exists new, calls σ' = (calls σ ++ new)%list
                        /\ (length new <= 1)%nat
                        /\ Forall (fun c => isRead c = true) new) as Hnone.
  { intros σ' H. exists []. rewrite H, app_nil_r. repeat split; [cbn; lia | constructor]. }
  assert (forall (σ' : World Obj S) c, isRead c = true ->
            calls σ' = (calls σ ++ [c])%list ->
            exists new, calls σ' = (calls σ ++ new)%list
                        /\ (length new <= 1)%nat
                        /\ Forall (fun c => isRead c = true) new) as Hone.
  { intros σ' c Hc H. exists [c]. repeat split; [exact H | cbn; lia |].
    constructor; [exact Hc | constructor]. }
  split; [| split].
  - unfold handleIndex. destruct (isValid _).
    + destruct (asPaginatedFindAll (source res)) as [f |]; [| apply Hnone; reflexivity].
      eapply Hone; [| apply calls_call_bind]; [reflexivity |].
      intros [objs count]. apply quiet_bind; [apply quiet_lift |].
      intros [links [err |]]; [apply quiet_fail | apply quiet_respondWithPagination].
    + destruct (asFindAll (source res)) as [f |]; [| apply Hnone; reflexivity].
      eapply Hone; [| apply calls_call_bind]; [reflexivity |].
      intros objs. apply quiet_respondWith.
  - unfold handleRead. destruct (Split_comma (ByName ps "id")) as [| id [| id' ids]].
    + destruct (asFindMultiple (source res)) as [f |].
      * eapply Hone; [| apply calls_call_bind]; [reflexivity |].
        intros obj. apply quiet_respondWith.
      * apply Hnone. reflexivity.
    + eapply Hone; [| apply calls_call_bind]; [reflexivity |].
      intros obj. apply quiet_respondWith.
    + destruct (asFindMultiple (source res)) as [f |].
      * eapply Hone; [| apply calls_call_bind]; [reflexivity |].
        intros obj. apply quiet_respondWith.
      * apply Hnone. reflexivity.
  - unfold handleLinked.
    destruct (reflect.Fields (resourceType res)) as [fields | msg];
      [| apply Hnone; reflexivity].
    destruct (findLinked (resources api) (ByName ps "linked") fields)
      as [[target |] | msg] eqn:Hfound.
    + destruct (asFindAll (source target)) as [f |] eqn:Hf.
      * eapply Hone with (c := CallFindAll (name target)
                                 (linkedRequest res r (ByName ps "id")));
          [reflexivity |].
        run. rewrite Hfound. cbn beta iota. rewrite Hf.
        destruct (f _ (store σ)) as [[e | obj] st]; [reflexivity |].
        apply respondWith_calls.
      * apply Hnone. run. rewrite Hfound. cbn beta iota. rewrite Hf. reflexivity.
    + apply Hnone. run. rewrite Hfound. cbn beta iota. apply respondWith_calls.
    + apply Hnone. run. rewrite Hfound. reflexivity.
Qed.

End CallProperties.

Section WriteProperties.
Context {Obj S : Type} {codec : Codec Obj}.

(** The order of calls in the writing handlers: [handleCreate] invokes
    nothing, or [Create], or [Create] and then [FindOne] on the identifier
    [Create] returned; [handleUpdate] invokes [FindOne] on the path
    identifier first and then [Update] at most once; [handleDelete]
    invokes [Delete] on the path identifier and nothing else. *)
Theorem write_handlers_calls (res : resource Obj S) (r : HTTPRequest)
    (ps : Params) (prefix : string) (info : information) (σ : World Obj S) :
  let req := buildRequest r in
  (exists new, calls (handleCreate res r prefix info σ).2 = (calls σ ++ new)%list
     /\ (new = []
         \/ (exists obj, new = [CallCreate (name res) obj req])
         \/ (exists obj id,
               (Create (source res) obj req (store σ)).1 = inr id
               /\ new = [CallCreate (name res) obj req;
                         CallFindOne (name res) id req])))
  /\ (exists new,
        calls (handleUpdate res r ps σ).2
        = (calls σ ++ CallFindOne (name res) (ByName ps "id") req :: new)%list
        /\ (new = [] \/ exists obj, new = [CallUpdate (name res) obj req]))
  /\ calls (handleDelete res r ps σ).2
     = (calls σ ++ [CallDelete (name res) (ByName ps "id") req])%list.
Proof.
  cbn zeta. split; [| split].
  - unfold handleCreate. run.
    destruct (unmarshalJSONRequest r) as [e | ctx];
      [exists []; rewrite app_nil_r; eauto |].
    destruct (UnmarshalInto ctx (resourceType res) []) as [e | [| newObj [| ? ?]]];
      try (exists []; rewrite app_nil_r; cbn; eauto; fail).
    destruct (match GetID newObj with Some checkID => nonempty checkID | None => false end).
    { exists []. rewrite app_nil_r. split; [apply respondWith_calls | eauto]. }
    destruct (Create (source res) newObj (buildRequest r) (store σ)) as [[e | id] st]
      eqn:Hcreate; cbn.
    { exists [CallCreate (name res) newObj (buildRequest r)]. eauto. }
    exists [CallCreate (name res) newObj (buildRequest r);
            CallFindOne (name res) id (buildRequest r)].
    split; [| right; right; exists newObj, id; rewrite Hcreate; split; reflexivity].
    destruct (FindOne (source res) id (buildRequest r) st) as [[e | obj] st'];
      cbn beta iota zeta.
    + cbn. rewrite <- app_assoc. reflexivity.
    + match goal with
      | |- calls (respondWith ?o ?i ?s ?w).2 = _ =>
          destruct (respondWith_calls o i s w) as [Hc _]; rewrite Hc
      end.
      cbn. rewrite <- app_assoc. reflexivity.
  - unfold handleUpdate. run.
    destruct (FindOne (source res) (ByName ps "id") (buildRequest r) (store σ))
      as [[e | obj] st]; [exists []; eauto |].
    destruct (unmarshalJSONRequest r) as [e | ctx]; [exists []; eauto |].
    cbn beta iota.
    destruct (ctx !! "data") as [[| | | | | check] |]; try (exists []; eauto; fail).
    destruct (check !! "id"); [| exists []; eauto].
    destruct (check !! "type"); [| exists []; eauto].
    destruct (negb (assignable obj (resourceType res))); [exists []; eauto |].
    destruct (UnmarshalInto ctx (resourceType res) [obj])
      as [e | [| updatingObj [| ? ?]]]; try (exists []; cbn; eauto; fail).
    cbn. exists [CallUpdate (name res) updatingObj (buildRequest r)].
    split; [| eauto].
    destruct (Update (source res) updatingObj (buildRequest r) st) as [[e |] st'];
      cbn; rewrite <- app_assoc; reflexivity.
  - unfold handleDelete. apply calls_call__bind. intros _. apply quiet_respond.
Qed.

End WriteProperties.

(** ** Reading one or several objects *)

Section ReadProperties.
Context {Obj S : Type} {codec : Codec Obj}.

(** A read of [/R/<ids>] with the identifiers joined by commas, none of
    them holding a comma: one identifier goes to [FindOne] and to no other
    method; two or more go to [FindMultiple], in the order of the path,
    when the source has it, and fail with 404 without any call when it has
    not. *)
Theorem handleRead_dispatch (res : resource Obj S) (r : HTTPRequest)
    (ps : Params) (info : information) (σ : World Obj S) (ids : list string) :
  ids <> [] -> Forall (fun id => hasComma id = false) ids ->
  ByName ps "id" = Join_comma ids ->
  match ids with
  | [id] =>
      handleRead res r ps info σ =
      (obj ← call (CallFindOne (name res) id (buildRequest r))
                  (FindOne (source res) id (buildRequest r));
       respondWith (Data obj) info StatusOK) σ
      /\ calls (handleRead res r ps info σ).2
         = (calls σ ++ [CallFindOne (name res) id (buildRequest r)])%list
  | _ =>
      match asFindMultiple (source res) with
      | Some FindMultiple =>
          handleRead res r ps info σ =
          (obj ← call (CallFindMultiple (name res) ids (buildRequest r))
                      (FindMultiple ids (buildRequest r));
           respondWith (Data obj) info StatusOK) σ
          /\ calls (handleRead res r ps info σ).2
             = (calls σ ++ [CallFindMultiple (name res) ids (buildRequest r)])%list
      | None =>
          handleRead res r ps info σ =
          (Failed (HTTPError None
                     "Resource does not implement the FindMultiple interface"
                     StatusNotFound), σ)
      end
  end.
Proof.
  intros Hne Hall Hid. unfold handleRead.
  rewrite Hid, (Split_Join_comma ids Hne Hall).
  destruct ids as [| id [| id' ids]]; [contradiction | |].
  - split; [reflexivity |]. apply calls_call_bind. intros obj. apply quiet_respondWith.
  - destruct (asFindMultiple (source res)) as [f |]; [| reflexivity].
    split; [reflexivity |]. apply calls_call_bind. intros obj. apply quiet_respondWith.
Qed.

End ReadProperties.

(** ** Errors on their way out *)

Lemma ParseUint_error s e :
  ParseUint s = inl e -> exists kind, e = NumError "ParseUint" s kind.
Proof.
  unfold ParseUint. destruct s as [| c s]; [intros [= <-]; eauto |].
  generalize (String c s) at 1 3 as s0. generalize (String c s) as t.
  generalize 0 as n. intros n t. revert n.
  induction t as [| c' t IH]; intros n s0; cbn [parseUintLoop]; [discriminate |].
  destruct (digitVal c'); [| intros [= <-]; eauto].
  destruct (_ <=? n); [intros [= <-]; eauto |].
  destruct ((_ <? _) || (_ <? _)); [intros [= <-]; eauto |]. apply IH.
Qed.

Section ServeProperties.
Context {Obj S : Type} {codec : Codec Obj}.

(** What a route does with its handler's outcome.  An error is answered
    through [handleError]: the store and the log stay as the handler left
    them, and on a response not yet begun the status is the error's own
    for an [HTTPError] and 500 for any other error, the content type is
    plain text and the body is the marshalled error and a newline.  A
    handler that returns or panics is left as it is; the route itself never
    returns an error. *)
Theorem serve_answers_errors (h : M (World Obj S) unit) (σ : World Obj S) :
  match h σ with
  | (Failed err, σ') =>
      serve h σ =
      (Done tt, {| store := store σ'; calls := calls σ';
                   writer := handleError err (writer σ') |})
      /\ (w_Status (writer σ') = None ->
          w_Status (handleError err (writer σ')) = Some (errorStatus err)
          /\ w_Header (handleError err (writer σ')) !! "Content-Type"
             = Some "text/plain; charset=utf-8"
          /\ w_Body (handleError err (writer σ'))
             = w_Body (writer σ') +:+ (marshalError err +:+ String (ascii_of_N 10) ""))
  | other => serve h σ = other
  end
  /\ forall err, (serve h σ).1 <> Failed err.
Proof.
  unfold serve. destruct (h σ) as [[[] | err | msg] σ']; cbn [fst];
    (split; [| discriminate]); try reflexivity.
  split; [reflexivity |]. intros Hfresh.
  destruct err; cbn; rewrite Hfresh; repeat split; try reflexivity;
    simplify_map_eq; reflexivity.
Qed.

End ServeProperties.

(** ** Creating and updating *)

Section CreateUpdateProperties.
Context {Obj S : Type} {codec : Codec Obj}.

(** A create request is refused before any call when its body cannot be
    read or decoded, and when it does not decode to exactly one object:
    then the error is "expected one object in POST", which the route
    answers with status 500. *)
Theorem handleCreate_refuses_before_Create (res : resource Obj S)
    (r : HTTPRequest) (prefix : string) (info : information) (σ : World Obj S) :
  match unmarshalJSONRequest r with
  | inl err => handleCreate res r prefix info σ = (Failed err, σ)
  | inr ctx =>
      match UnmarshalInto ctx (resourceType res) [] with
      | inl err => handleCreate res r prefix info σ = (Failed err, σ)
      | inr [newObj] => True
      | inr _ =>
          handleCreate res r prefix info σ
          = (Failed (errorString "expected one object in POST"), σ)
          /\ (w_Status (writer σ) = None ->
              w_Status (writer (serve (handleCreate res r prefix info) σ).2)
              = Some StatusInternalServerError)
      end
  end.
Proof.
  unfold handleCreate, serve. run.
  destruct (unmarshalJSONRequest r) as [e | ctx]; [reflexivity |].
  destruct (UnmarshalInto ctx (resourceType res) []) as [e | [| newObj [| ? ?]]];
    try reflexivity; try exact I;
    (split; [reflexivity |]; intros Hfresh; cbn; rewrite Hfresh; reflexivity).
Qed.

(** A create request whose one object has no identifier, be it that the
    object has no [GetID] or that [GetID] is empty: [Create] is invoked
    with the decoded object, then [FindOne] with the identifier [Create]
    returned, against the store [Create] left; the response has status
    201, the [Location] header prefix, resource name, slash and the new
    identifier, and the marshalled object read back as its body. *)
Theorem handleCreate_created (res : resource Obj S) (r : HTTPRequest)
    (prefix : string) (info : information) (σ : World Obj S)
    (ctx : gmap string JSON) (newObj obj : Obj) (id data : string) (st st' : S) :
  unmarshalJSONRequest r = inr ctx ->
  UnmarshalInto ctx (resourceType res) [] = inr [newObj] ->
  GetID newObj = None \/ GetID newObj = Some "" ->
  Create (source res) newObj (buildRequest r) (store σ) = (inr id, st) ->
  FindOne (source res) id (buildRequest r) st = (inr obj, st') ->
  MarshalToJSONWithURLs (Data obj) info = inr data ->
  w_Status (writer σ) = None ->
  let σ' := (handleCreate res r prefix info σ).2 in
  (handleCreate res r prefix info σ).1 = Done tt
  /\ store σ' = st'
  /\ calls σ' = (calls σ ++ [CallCreate (name res) newObj (buildRequest r);
                             CallFindOne (name res) id (buildRequest r)])%list
  /\ w_Status (writer σ') = Some StatusCreated
  /\ w_Header (writer σ') !! "Location" = Some (prefix +:+ name res +:+ "/" +:+ id)
  /\ w_Header (writer σ') !! "Content-Type" = Some "application/vnd.api+json"
  /\ w_Body (writer σ') = w_Body (writer σ) +:+ data.
Proof.
  intros Hctx Hobjs Hid Hcreate Hfind Hdata Hfresh. cbn zeta.
  assert ((match GetID newObj with Some checkID => nonempty checkID | None => false end)
          = false) as HnoID by (destruct Hid as [-> | ->]; reflexivity).
  unfold handleCreate. run. rewrite Hctx, Hobjs. cbn beta iota. rewrite HnoID, Hcreate.
  cbn [store calls writer]. rewrite Hfind. cbn beta iota. rewrite respondWith_eq, Hdata. cbn.
  rewrite Hfresh, <- app_assoc. repeat split; try reflexivity; simplify_map_eq; reflexivity.
Qed.

(** When the read-back after [Create] fails, the handler returns that
    error with the object created: the store is the one [Create] and
    [FindOne] left, and the response the route sends carries the error's
    status together with the [Location] header set before the read. *)
Theorem handleCreate_readback_fails (res : resource Obj S) (r : HTTPRequest)
    (prefix : string) (info : information) (σ : World Obj S)
    (ctx : gmap string JSON) (newObj : Obj) (id : string) (err : error) (st st' : S) :
  unmarshalJSONRequest r = inr ctx ->
  UnmarshalInto ctx (resourceType res) [] = inr [newObj] ->
  GetID newObj = None \/ GetID newObj = Some "" ->
  Create (source res) newObj (buildRequest r) (store σ) = (inr id, st) ->
  FindOne (source res) id (buildRequest r) st = (inl err, st') ->
  w_Status (writer σ) = None ->
  let σ' := (serve (handleCreate res r prefix info) σ).2 in
  (handleCreate res r prefix info σ).1 = Failed err
  /\ store σ' = st'
  /\ w_Status (writer σ') = Some (errorStatus err)
  /\ w_Header (writer σ') !! "Location" = Some (prefix +:+ name res +:+ "/" +:+ id).
Proof.
  intros Hctx Hobjs Hid Hcreate Hfind Hfresh. cbn zeta.
  assert ((match GetID newObj with Some checkID => nonempty checkID | None => false end)
          = false) as HnoID by (destruct Hid as [-> | ->]; reflexivity).
  unfold serve, handleCreate. run. rewrite Hctx, Hobjs. cbn beta iota.
  rewrite HnoID, Hcreate. cbn [store calls writer]. rewrite Hfind. cbn beta iota.
  destruct err; cbn; rewrite Hfresh; repeat split; try reflexivity;
    simplify_map_eq; reflexivity.
Qed.

(** An update with a well-formed envelope.  The body is decoded over the
    object [FindOne] returned, so members the body leaves out keep their
    fetched values, and [Update] gets the result, against the store
    [FindOne] left.  The [id] of the envelope must be there but is not
    compared with the identifier of the path.  When [Update] succeeds the
    response is 204 with no body and no header; when it fails its error is
    returned and nothing is written. *)
Theorem handleUpdate_updates (res : resource Obj S) (r : HTTPRequest)
    (ps : Params) (σ : World Obj S) (ctx check : gmap string JSON)
    (obj merged : Obj) (st : S) :
  FindOne (source res) (ByName ps "id") (buildRequest r) (store σ) = (inr obj, st) ->
  unmarshalJSONRequest r = inr ctx ->
  ctx !! "data" = Some (JObject check) ->
  is_Some (check !! "id") -> is_Some (check !! "type") ->
  assignable obj (resourceType res) = true ->
  UnmarshalInto ctx (resourceType res) [obj] = inr [merged] ->
  let log := (calls σ ++ [CallFindOne (name res) (ByName ps "id") (buildRequest r);
                          CallUpdate (name res) merged (buildRequest r)])%list in
  match Update (source res) merged (buildRequest r) st with
  | (None, st') =>
      handleUpdate res r ps σ =
      (Done tt, {| store := st'; calls := log;
                   writer := WriteHeader StatusNoContent (writer σ) |})
      /\ w_Body (WriteHeader StatusNoContent (writer σ)) = w_Body (writer σ)
      /\ w_Header (WriteHeader StatusNoContent (writer σ)) = w_Header (writer σ)
      /\ (w_Status (writer σ) = None ->
          w_Status (WriteHeader StatusNoContent (writer σ)) = Some StatusNoContent)
  | (Some err, st') =>
      handleUpdate res r ps σ =
      (Failed err, {| store := st'; calls := log; writer := writer σ |})
  end.
Proof.
  intros Hfind Hctx Hdata [vid Hid] [vtype Htype] Hassign Hmerge. cbn zeta.
  unfold handleUpdate. run. rewrite Hfind, Hctx. cbn beta iota.
  rewrite Hdata, Hid, Htype, Hassign. cbn [negb]. cbn beta iota. rewrite Hmerge.
  cbn [store calls writer].
  destruct (Update (source res) merged (buildRequest r) st) as [[err |] st'];
    cbn; rewrite <- app_assoc; [reflexivity |].
  repeat split. intros Hfresh. rewrite Hfresh. reflexivity.
Qed.

End CreateUpdateProperties.

(** ** The paginated index *)

Lemma getLinks_error p r count info links err :
  getLinks p r count info = Return (links, Some err) ->
  exists text kind, err = NumError "ParseUint" text kind.
Proof.
  assert (forall s e, ParseUint s = inl e ->
            exists text kind, e = NumError "ParseUint" text kind) as Hparse.
  { intros s e H. apply ParseUint_error in H as [kind ->]. eauto. }
  unfold getLinks. destruct (nonempty (number p)).
  - destruct (ParseUint (number p)) as [e | n] eqn:Hn;
      [intros [= _ <-]; eapply Hparse, Hn |].
    destruct (negb (String.eqb (number p) "1")); cbn zeta beta iota;
      (destruct (ParseUint (size p)) as [e | s] eqn:Hs;
         [intros [= _ <-]; eapply Hparse, Hs |]);
      (destruct (s =? 0); [discriminate |]);
      destruct (negb (n =? _)); discriminate.
  - destruct (ParseUint (offset p)) as [e | o] eqn:Ho;
      [intros [= _ <-]; eapply Hparse, Ho |].
    destruct (ParseUint (limit p)) as [e | l] eqn:Hl;
      [intros [= _ <-]; eapply Hparse, Hl |].
    destruct (negb (String.eqb (offset p) "0")); cbn zeta beta iota;
      destruct (_ <? _); discriminate.
Qed.

Section IndexProperties.
Context {Obj S : Type} {codec : Codec Obj}.

(** A paginated index that goes well: with valid pagination parameters,
    a [PaginatedFindAll] that returns objects and a count, and links
    computed without error, the body is what [json.Marshal] makes of the
    marshalled objects with the link map stored under ["links"], in place
    of any member of that name, sent with status 200 and the JSON:API
    content type; [PaginatedFindAll] is the one method invoked. *)
Theorem handleIndex_paginated (res : resource Obj S) (r : HTTPRequest)
    (info : information) (σ : World Obj S)
    (PaginatedFindAll : Request -> S -> (error + Obj * Z) * S)
    (objs : Obj) (count : Z) (st : S) (links : gmap string string)
    (data : gmap string JSON) (body : string) :
  isValid (newPaginationQueryParams r) = true ->
  asPaginatedFindAll (source res) = Some PaginatedFindAll ->
  PaginatedFindAll (buildRequest r) (store σ) = (inr (objs, count), st) ->
  getLinks (newPaginationQueryParams r) r count info = Return (links, None) ->
  MarshalWithURLs (Data objs) info = inr data ->
  json_Marshal (<["links" := JObject (JString <$> links)]> data) = inr body ->
  w_Status (writer σ) = None ->
  let σ' := (handleIndex res r info σ).2 in
  (handleIndex res r info σ).1 = Done tt
  /\ store σ' = st
  /\ calls σ' = (calls σ ++ [CallPaginatedFindAll (name res) (buildRequest r)])%list
  /\ w_Status (writer σ') = Some StatusOK
  /\ w_Header (writer σ') !! "Content-Type" = Some "application/vnd.api+json"
  /\ w_Body (writer σ') = w_Body (writer σ) +:+ body.
Proof.
  intros Hvalid Hsrc Hfind Hlinks Hdata Hbody Hfresh. cbn zeta.
  unfold handleIndex, respondWithPagination. rewrite Hvalid, Hsrc. run.
  rewrite Hfind. cbn beta iota. rewrite Hlinks. cbn beta iota.
  rewrite Hdata. cbn beta iota. rewrite Hbody. cbn. rewrite Hfresh.
  repeat split; try reflexivity; simplify_map_eq; reflexivity.
Qed.

(** Pagination numbers are looked at only after the data source has been
    queried.  With valid pagination parameters of which one does not parse
    as an unsigned number, [PaginatedFindAll] is invoked all the same;
    then the parse error is returned, nothing of the result is written,
    and the route answers with status 500. *)
Theorem handleIndex_bad_number (res : resource Obj S) (r : HTTPRequest)
    (info : information) (σ : World Obj S)
    (PaginatedFindAll : Request -> S -> (error + Obj * Z) * S)
    (objs : Obj) (count : Z) (st : S) (links : gmap string string) (err : error) :
  isValid (newPaginationQueryParams r) = true ->
  asPaginatedFindAll (source res) = Some PaginatedFindAll ->
  PaginatedFindAll (buildRequest r) (store σ) = (inr (objs, count), st) ->
  getLinks (newPaginationQueryParams r) r count info = Return (links, Some err) ->
  w_Status (writer σ) = None ->
  handleIndex res r info σ =
  (Failed err,
   {| store := st;
      calls := (calls σ ++ [CallPaginatedFindAll (name res) (buildRequest r)])%list;
      writer := writer σ |})
  /\ (exists text kind, err = NumError "ParseUint" text kind)
  /\ w_Status (writer (serve (handleIndex res r info) σ).2)
     = Some StatusInternalServerError.
Proof.
  intros Hvalid Hsrc Hfind Hlinks Hfresh.
  assert (handleIndex res r info σ =
    (Failed err,
     {| store := st;
        calls := (calls σ ++ [CallPaginatedFindAll (name res) (buildRequest r)])%list;
        writer := writer σ |})) as Heq.
  { unfold handleIndex. rewrite Hvalid, Hsrc. run. rewrite Hfind. cbn beta iota.
    rewrite Hlinks. reflexivity. }
  assert (exists text kind, err = NumError "ParseUint" text kind) as (text & kind & ->).
  { exact (getLinks_error _ _ _ _ _ _ Hlinks). }
  split; [exact Heq |]. split; [eauto |].
  unfold serve. rewrite Heq. cbn. rewrite Hfresh. reflexivity.
Qed.

(** A page size of zero takes the route down.  With valid page/size
    parameters whose number parses and whose size parses to zero,
    [PaginatedFindAll] is invoked, then the division panics: the route
    neither writes a response nor returns an error. *)
Theorem handleIndex_size_zero_panics (res : resource Obj S) (r : HTTPRequest)
    (info : information) (σ : World Obj S)
    (PaginatedFindAll : Request -> S -> (error + Obj * Z) * S)
    (objs : Obj) (count n : Z) (st : S) :
  present r "page[number]" ->
  ParseUint (Values_Get (URL_Query r) "page[number]") = inr n ->
  ParseUint (Values_Get (URL_Query r) "page[size]") = inr 0 ->
  absent r "page[offset]" -> absent r "page[limit]" ->
  asPaginatedFindAll (source res) = Some PaginatedFindAll ->
  PaginatedFindAll (buildRequest r) (store σ) = (inr (objs, count), st) ->
  serve (handleIndex res r info) σ =
  (Panicked "runtime error: integer divide by zero",
   {| store := st;
      calls := (calls σ ++ [CallPaginatedFindAll (name res) (buildRequest r)])%list;
      writer := writer σ |}).
Proof.
  intros Hnum Hn Hs Hoff Hlim Hsrc Hfind.
  assert (size (newPaginationQueryParams r) <> "") as Hsize.
  { cbn. intros H. rewrite H in Hs. discriminate. }
  assert (isValid (newPaginationQueryParams r) = true) as Hvalid.
  { apply isValid_iff. left. repeat split; assumption. }
  unfold serve, handleIndex. rewrite Hvalid, Hsrc. run. rewrite Hfind. cbn beta iota.
  rewrite (getLinks_page_size_zero (newPaginationQueryParams r) r count info n Hnum Hn Hs).
  reflexivity.
Qed.

End IndexProperties.

(** ** One status per response *)

Section AnswerProperties.
Context {R Obj S : Type} {codec : Codec Obj} {rt : Router R (Handler Obj S)}.

Lemma mute_bind {A B} (m : M (World Obj S) A) (k : A -> M (World Obj S) B) :
  mute m -> (forall a, mute (k a)) -> mute (m ≫= k).
Proof.
  intros Hm Hk σ. unfold mbind, M_bind, bind.
  destruct (Hm σ) as [Hc Hs]. destruct (m σ) as [[a | e | msg] σ']; cbn in *;
    [| split; assumption..].
  destruct (Hk a σ') as [Hc' Hs']. split; congruence.
Qed.

Lemma mute_try {A} (x : error + A) : mute (try x : M (World Obj S) A).
Proof. intros σ. destruct x; split; reflexivity. Qed.

Lemma mute_lift {A} (g : go A) : mute (lift g : M (World Obj S) A).
Proof. intros σ. destruct g; split; reflexivity. Qed.

Lemma mute_call {A} c (f : S -> (error + A) * S) : mute (call c f : M (World Obj S) A).
Proof. intros σ. unfold call. destruct (f (store σ)) as [[e | a] st]; split; reflexivity. Qed.

Lemma mute_call_ c (f : S -> option error * S) : mute (call_ c f : M (World Obj S) unit).
Proof. intros σ. unfold call_. destruct (f (store σ)) as [[e |] st]; split; reflexivity. Qed.

Lemma mute_Header_Set k v : mute (respond (Header_Set k v) : M (World Obj S) unit).
Proof. intros σ. split; reflexivity. Qed.

Lemma settles_bind {A} statuses (m : M (World Obj S) A) (k : A -> M (World Obj S) unit) :
  mute m -> (forall a, settles statuses (k a)) -> settles statuses (m ≫= k).
Proof.
  intros Hm Hk σ Hfresh. unfold mbind, M_bind, bind.
  destruct (Hm σ) as [Hs Hb]. destruct (m σ) as [[a | e | msg] σ']; cbn in *;
    [| split; congruence..].
  assert (w_Status (writer σ') = None) as Hfresh' by congruence.
  specialize (Hk a σ' Hfresh').
  destruct ((k a σ').1); [exact Hk | |]; destruct Hk; split; congruence.
Qed.

Lemma settles_fail statuses e : settles statuses (fail e : M (World Obj S) unit).
Proof. intros σ Hfresh. split; [exact Hfresh | reflexivity]. Qed.

Lemma settles_panic statuses msg : settles statuses (panic msg : M (World Obj S) unit).
Proof. intros σ Hfresh. split; [exact Hfresh | reflexivity]. Qed.

Lemma settles_WriteHeader statuses status :
  status ∈ statuses ->
  settles statuses (respond (WriteHeader status) : M (World Obj S) unit).
Proof. intros Hin σ Hfresh. exists status. cbn. rewrite Hfresh. split; [exact Hin | reflexivity]. Qed.

Lemma settles_respondWith statuses (obj : payload Obj) info status :
  status ∈ statuses ->
  settles statuses (respondWith obj info status : M (World Obj S) unit).
Proof.
  intros Hin σ Hfresh. rewrite respondWith_eq.
  destruct (MarshalToJSONWithURLs obj info); cbn; [split; [exact Hfresh | reflexivity] |].
  exists status. rewrite Hfresh. split; [exact Hin | reflexivity].
Qed.

Lemma settles_respondWithPagination statuses (obj : payload Obj) info status links :
  status ∈ statuses ->
  settles statuses (respondWithPagination obj info status links : M (World Obj S) unit).
Proof.
  intros Hin σ Hfresh. unfold respondWithPagination. run.
  destruct (MarshalWithURLs obj info) as [e | data];
    [split; [exact Hfresh | reflexivity] |].
  destruct (json_Marshal _) as [e | result]; [split; [exact Hfresh | reflexivity] |].
  exists status. cbn. rewrite Hfresh. split; [exact Hin | reflexivity].
Qed.

Lemma settles_handleIndex (res : resource Obj S) r info :
  settles [StatusOK] (handleIndex res r info).
Proof.
  unfold handleIndex. destruct (isValid _).
  - destruct (asPaginatedFindAll (source res)) as [f |]; [| apply settles_fail].
    apply settles_bind; [apply mute_call |]. intros [objs count].
    apply settles_bind; [apply mute_lift |]. intros [links [err |]];
      [apply settles_fail | apply settles_respondWithPagination; set_solver].
  - destruct (asFindAll (source res)) as [f |]; [| apply settles_fail].
    apply settles_bind; [apply mute_call |]. intros objs.
    apply settles_respondWith; set_solver.
Qed.

Lemma settles_handleRead (res : resource Obj S) r ps info :
  settles [StatusOK] (handleRead res r ps info).
Proof.
  unfold handleRead. apply settles_bind.
  - destruct (Split_comma _) as [| id [| id' ids]];
      try apply mute_call;
      (destruct (asFindMultiple (source res)); [apply mute_call |]);
      intros σ; split; reflexivity.
  - intros obj. apply settles_respondWith; set_solver.
Qed.

Lemma settles_handleLinked (res : resource Obj S) (api : API R Obj S) r ps info :
  settles [StatusOK; StatusNotFound] (handleLinked res api r ps info).
Proof.
  unfold handleLinked. apply settles_bind; [apply mute_lift |]. intros fields.
  apply settles_bind; [apply mute_lift |]. intros [target |].
  - destruct (asFindAll (source target)) as [f |]; [| apply settles_fail].
    apply settles_bind; [apply mute_call |]. intros obj.
    apply settles_respondWith; set_solver.
  - apply settles_respondWith; set_solver.
Qed.

Lemma settles_handleCreate (res : resource Obj S) r prefix info :
  settles [StatusCreated; StatusForbidden] (handleCreate res r prefix info).
Proof.
  unfold handleCreate. apply settles_bind; [apply mute_try |]. intros ctx.
  apply settles_bind; [apply mute_try |]. intros [| newObj [| ? ?]];
    try apply settles_fail.
  destruct (match GetID newObj with Some _ => _ | None => _ end);
    [apply settles_respondWith; set_solver |].
  apply settles_bind; [apply mute_call |]. intros id.
  apply settles_bind; [apply mute_Header_Set |]. intros _.
  apply settles_bind; [apply mute_call |]. intros obj.
  apply settles_respondWith; set_solver.
Qed.

Lemma settles_handleUpdate (res : resource Obj S) r ps :
  settles [StatusNoContent] (handleUpdate res r ps).
Proof.
  unfold handleUpdate. apply settles_bind; [apply mute_call |]. intros obj.
  apply settles_bind; [apply mute_try |]. intros ctx.
  destruct (ctx !! "data") as [[| | | | | check] |]; try apply settles_fail.
  destruct (check !! "id"); [| apply settles_fail].
  destruct (check !! "type"); [| apply settles_fail].
  destruct (negb _); [apply settles_panic |].
  apply settles_bind; [apply mute_try |]. intros [| updatingObj [| ? ?]];
    try apply settles_fail.
  apply settles_bind; [apply mute_call_ |]. intros _.
  apply settles_WriteHeader; set_solver.
Qed.

Lemma settles_handleDelete (res : resource Obj S) r ps :
  settles [StatusNoContent] (handleDelete res r ps).
Proof.
  unfold handleDelete. apply settles_bind; [apply mute_call_ |]. intros _.
  apply settles_WriteHeader; set_solver.
Qed.

(** A route whose handler settles the status line always answers, unless
    it panics. *)
Lemma serve_settles statuses (h : M (World Obj S) unit) (σ : World Obj S) :
  settles statuses h -> w_Status (writer σ) = None ->
  (forall err, (serve h σ).1 <> Failed err)
  /\ match (serve h σ).1 with
     | Panicked _ => w_Status (writer (serve h σ).2) = None
                     /\ w_Body (writer (serve h σ).2) = w_Body (writer σ)
     | _ => is_Some (w_Status (writer (serve h σ).2))
     end.
Proof.
  intros Hh Hfresh. specialize (Hh σ Hfresh). unfold serve.
  destruct (h σ) as [[[] | err | msg] σ']; cbn in *.
  - split; [discriminate |]. destruct Hh as (status & _ & ->). eauto.
  - split; [discriminate |]. destruct Hh as [Hs _].
    destruct err; cbn; rewrite Hs; eauto.
  - split; [discriminate | exact Hh].
Qed.

(** Every handler settles the status line exactly once, whatever the
    request and the data source.  On a response not yet begun, a handler
    that returns has written a status, 200 for the reading handlers (and
    404 for an unresolved relation), 201 or 403 for a create, 204 for an
    update or a delete; a handler that returns an error or panics has
    written neither a status nor a body, so the status of [handleError] is
    the first one. *)
Theorem handlers_answer_once (res : resource Obj S) (api : API R Obj S)
    (r : HTTPRequest) (ps : Params) (prefix : string) (info : information) :
  settles [StatusOK] (handleIndex res r info)
  /\ settles [StatusOK] (handleRead res r ps info)
  /\ settles [StatusOK; StatusNotFound] (handleLinked res api r ps info)
  /\ settles [StatusCreated; StatusForbidden] (handleCreate res r prefix info)
  /\ settles [StatusNoContent] (handleUpdate res r ps)
  /\ settles [StatusNoContent] (handleDelete res r ps).
Proof.
  repeat split.
  - apply settles_handleIndex.
  - apply settles_handleRead.
  - apply settles_handleLinked.
  - apply settles_handleCreate.
  - apply settles_handleUpdate.
  - apply settles_handleDelete.
Qed.

(** Every route of a resource answers.  On a response not yet begun, the
    closure registered for a route never returns an error; it leaves the
    response with a status, or it panics with neither status nor body
    written.  An [OPTIONS] route invokes nothing and answers 204 with its
    [Allow] header. *)
Theorem runHandler_answers (api : API R Obj S) (h : Handler Obj S)
    (r : HTTPRequest) (ps : Params) (σ : World Obj S) :
  w_Status (writer σ) = None ->
  (forall err, (runHandler api h r ps σ).1 <> Failed err)
  /\ match (runHandler api h r ps σ).1 with
     | Panicked _ => w_Status (writer (runHandler api h r ps σ).2) = None
                     /\ w_Body (writer (runHandler api h r ps σ).2) = w_Body (writer σ)
     | _ => is_Some (w_Status (writer (runHandler api h r ps σ).2))
     end
  /\ forall allow, h = OptionsHandler allow ->
       runHandler api h r ps σ =
       (Done tt, {| store := store σ; calls := calls σ;
                    writer := WriteHeader StatusNoContent
                                (Header_Set "Allow" allow (writer σ)) |})
       /\ w_Status (writer (runHandler api h r ps σ).2) = Some StatusNoContent
       /\ w_Header (writer (runHandler api h r ps σ).2) !! "Allow" = Some allow.
Proof.
  intros Hfresh.
  destruct h as [allow | res | res | res | res | res | res]; cbn [runHandler].
  - unfold mbind, M_bind, bind, respond. cbn. rewrite Hfresh.
    split; [discriminate |]. split; [eauto |].
    intros allow' [= <-]. repeat split. apply lookup_insert_eq.
  - destruct (serve_settles _ _ σ (settles_handleIndex res r (info api)) Hfresh).
    repeat split; try assumption; discriminate.
  - destruct (serve_settles _ _ σ (settles_handleRead res r ps (info api)) Hfresh).
    repeat split; try assumption; discriminate.
  - destruct (serve_settles _ _ σ (settles_handleLinked res api r ps (info api)) Hfresh).
    repeat split; try assumption; discriminate.
  - destruct (serve_settles _ _ σ
                (settles_handleCreate res r (prefix api) (info api)) Hfresh).
    repeat split; try assumption; discriminate.
  - destruct (serve_settles _ _ σ (settles_handleDelete res r ps) Hfresh).
    repeat split; try assumption; discriminate.
  - destruct (serve_settles _ _ σ (settles_handleUpdate res r ps) Hfresh).
    repeat split; try assumption; discriminate.
Qed.

End AnswerProperties.

(** ** The route prefix and the routes *)

Lemma TrimLeft_slash_first s c t : TrimLeft_slash s = String c t -> c <> "/"%char.
Proof.
  induction s as [| c' s IH]; cbn; [discriminate |].
  destruct (Ascii.eqb_spec c' "/"%char) as [-> | Hne]; [exact IH |].
  intros [= <- <-]. exact Hne.
Qed.

Lemma TrimRight_slash_first s :
  (forall t, s <> String "/"%char t) -> forall t, TrimRight_slash s <> String "/"%char t.
Proof.
  destruct s as [| c' s]; cbn; [discriminate |]. intros Hne t.
  destruct (TrimRight_slash s).
  - destruct (Ascii.eqb_spec c' "/"%char) as [-> | Hc]; [discriminate |].
    intros [= ->]. apply Hc. reflexivity.
  - intros [= -> <-]. exact (Hne s eq_refl).
Qed.

Lemma TrimRight_slash_last s t : TrimRight_slash s <> t +:+ "/".
Proof.
  revert t. induction s as [| c s IH]; intros t; cbn [TrimRight_slash].
  - destruct t; discriminate.
  - destruct (TrimRight_slash s) as [| c' u] eqn:Hu.
    + destruct (Ascii.eqb_spec c "/"%char) as [-> | Hc].
      * destruct t; discriminate.
      * destruct t as [| c0 [| c1 t]]; cbn; try discriminate.
        intros [= ->]. apply Hc. reflexivity.
    + destruct t as [| c0 t]; [discriminate |].
      change (String c0 t +:+ "/") with (String c0 (t +:+ "/")).
      intros [= <- H]. exact (IH t H).
Qed.

Lemma TrimRight_slash_snoc s : TrimRight_slash (s +:+ "/") = TrimRight_slash s.
Proof.
  induction s as [| c s IH]; [reflexivity |].
  change (String c s +:+ "/") with (String c (s +:+ "/")).
  cbn [TrimRight_slash]. rewrite IH. reflexivity.
Qed.

Lemma TrimLeft_slash_snoc s :
  TrimRight_slash (TrimLeft_slash (s +:+ "/")) = TrimRight_slash (TrimLeft_slash s).
Proof.
  induction s as [| c s IH]; [reflexivity |].
  change (String c s +:+ "/") with (String c (s +:+ "/")).
  cbn [TrimLeft_slash]. destruct (Ascii.eqb c "/"%char); [exact IH |].
  exact (TrimRight_slash_snoc (String c s)).
Qed.

Section PrefixProperties.
Context {R Obj S : Type} {codec : Codec Obj} {rt : Router R (Handler Obj S)}.

(** The route prefix of a new API, whatever prefix is passed: it is ["/"]
    or a segment between two slashes, where the segment neither begins
    nor ends with a slash; slashes around the argument make no
    difference.  The prefix handed to the marshaller is the argument as
    passed, not the normalised one, and so is it with a base URL. *)
Theorem NewAPI_prefix (s baseURL' : string) :
  let api : API R Obj S := NewAPI s in
  (prefix api = "/"
   \/ exists t, prefix api = "/" +:+ t +:+ "/" /\ t <> ""
        /\ (forall u, t <> "/" +:+ u) /\ (forall u, t <> u +:+ "/"))
  /\ prefix (NewAPI ("/" +:+ s) : API R Obj S) = prefix api
  /\ prefix (NewAPI (s +:+ "/") : API R Obj S) = prefix api
  /\ prefix (NewAPIWithBaseURL s baseURL' : API R Obj S) = prefix api
  /\ info_prefix (info api) = s
  /\ info (NewAPIWithBaseURL s baseURL' : API R Obj S)
     = {| info_prefix := s; baseURL := baseURL' |}
  /\ resources api = [].
Proof.
  cbn zeta. unfold NewAPIWithBaseURL, NewAPI. cbn [prefix info info_prefix resources].
  split; [| split; [| split; [| split; [| split; [| split]]]]].
  - destruct (Trim_slash s) as [| c t] eqn:Ht; [left; reflexivity |]. right.
    exists (String c t). split; [| split; [discriminate | split]].
    + cbn [String.length]. rewrite Nat2Z.inj_succ.
      destruct (Z.ltb_spec 0 (Z.succ (Z.of_nat (String.length t)))); [reflexivity | lia].
    + intros u. rewrite <- Ht. unfold Trim_slash.
      apply TrimRight_slash_first. intros v Hv.
      exact (TrimLeft_slash_first s _ _ Hv eq_refl).
    + intros u. rewrite <- Ht. apply TrimRight_slash_last.
  - reflexivity.
  - unfold Trim_slash. rewrite TrimLeft_slash_snoc. reflexivity.
  - reflexivity.
  - reflexivity.
  - reflexivity.
  - reflexivity.
Qed.

(** A registration that returns, on a router that keeps its contract: the
    resource is named after the prototype, a struct, and comes last in
    the registry; its eight routes are in the router, under the prefix of
    the API followed by the name; the routes registered before, the
    prefix and the marshalling information are kept. *)
Theorem addResource_routes (laws : RouterLaws rt) (api api' : API R Obj S)
    (prototype : option reflect.Type_) (source' : CRUD Obj S) (res : resource Obj S) :
  addResource api prototype source' = Return (api', res) ->
  let p := prefix api in
  let n := name res in
  (exists t, prototype = Some t /\ reflect.Kind_of t = reflect.Struct
             /\ res = {| resourceType := t;
                         name := Jsonify (Pluralize (reflect.Name t));
                         source := source' |})
  /\ resources api' = (resources api ++ [res])%list
  /\ prefix api' = prefix api /\ info api' = info api
  /\ Forall (fun q => q ∈ routes (router api'))
       [("OPTIONS", p +:+ n); ("OPTIONS", p +:+ n +:+ "/:id");
        ("GET", p +:+ n); ("GET", p +:+ n +:+ "/:id");
        ("GET", p +:+ n +:+ "/:id/:linked"); ("POST", p +:+ n);
        ("DELETE", p +:+ n +:+ "/:id"); ("PATCH", p +:+ n +:+ "/:id")]
  /\ (forall q, q ∈ routes (router api) -> q ∈ routes (router api')).
Proof.
  unfold addResource. destruct prototype as [t |]; [| discriminate].
  destruct (reflect.Kind_eqb (reflect.Kind_of t) reflect.Struct) eqn:Hk;
    [| discriminate]. cbn [negb]. cbn zeta.
  set (n := Jsonify (Pluralize (reflect.Name t))).
  set (res0 := {| resourceType := t; source := source'; name := n |}).
  destruct (handle "PATCH" _ _ _) as [r8 |] eqn:H8; [| discriminate].
  intros [= <- <-]. cbn [prefix resources router name info res0].
  apply handle_Return in H8 as (r7 & H7 & E8).
  apply handle_Return in H7 as (r6 & H6 & E7).
  apply handle_Return in H6 as (r5 & H5 & E6).
  apply handle_Return in H5 as (r4 & H4 & E5).
  apply handle_Return in H4 as (r3 & H3 & E4).
  apply handle_Return in H3 as (r2 & H2 & E3).
  apply handle_Return in H2 as (r1 & H1 & E2).
  apply handle_Return in H1 as (r0 & H0 & E1).
  injection H0 as <-.
  pose proof (fun q => Handle_keeps rt laws _ _ _ _ _ q E1) as K1.
  pose proof (fun q => Handle_keeps rt laws _ _ _ _ _ q E2) as K2.
  pose proof (fun q => Handle_keeps rt laws _ _ _ _ _ q E3) as K3.
  pose proof (fun q => Handle_keeps rt laws _ _ _ _ _ q E4) as K4.
  pose proof (fun q => Handle_keeps rt laws _ _ _ _ _ q E5) as K5.
  pose proof (fun q => Handle_keeps rt laws _ _ _ _ _ q E6) as K6.
  pose proof (fun q => Handle_keeps rt laws _ _ _ _ _ q E7) as K7.
  pose proof (fun q => Handle_keeps rt laws _ _ _ _ _ q E8) as K8.
  apply (Handle_registers rt laws) in E1, E2, E3, E4, E5, E6, E7, E8.
  split; [exists t; split; [reflexivity |]; split;
          [apply Kind_eqb_eq, Hk | reflexivity] |].
  repeat split; [| auto 10].
  repeat constructor; auto 10.
Qed.

End PrefixProperties.

(** ** Which relation a traversal resolves to *)

Section LinkedProperties.
Context {Obj S : Type} {codec : Codec Obj}.

Lemma findResource_first (rs : list (resource Obj S)) fieldType t :
  findResource rs fieldType = Some t ->
  exists rs1 rs2, rs = (rs1 ++ t :: rs2)%list /\ name t = fieldType
                  /\ Forall (fun x => name x <> fieldType) rs1.
Proof.
  induction rs as [| x rs IH]; cbn [findResource]; [discriminate |].
  destruct (String.eqb_spec (name x) fieldType) as [Heq | Hne].
  - intros [= <-]. exists [], rs. split; [reflexivity |]. split; [exact Heq | constructor].
  - intros H. destruct (IH H) as (rs1 & rs2 & -> & Hname & Hall).
    exists (x :: rs1), rs2. split; [reflexivity |]. split; [exact Hname |].
    constructor; assumption.
Qed.

(** The relation a traversal resolves to is the first one in order: the
    first field, in declaration order, that is a linked field of the name
    asked for and has a registered resource named after its element type
    (pluralized, then conventionalized), and for that field the first such
    resource in registration order.  Linked fields before it have no
    resource in the registry. *)
Theorem findLinked_first (rs : list (resource Obj S)) (linked : string)
    (fields : list (string * reflect.Type_)) (t : resource Obj S) :
  findLinked rs linked fields = Return (Some t) ->
  exists before field after elem rs1 rs2,
    fields = (before ++ field :: after)%list
    /\ isLinkedField linked field = true
    /\ reflect.Elem field.2 = Return elem
    /\ rs = (rs1 ++ t :: rs2)%list
    /\ name t = Pluralize (Jsonify (reflect.Name elem))
    /\ Forall (fun x => name x <> name t) rs1
    /\ Forall (fun f => forall x, x ∈ rs -> ~ isTargetOf linked f x) before.
Proof.
  induction fields as [| f fields IH]; cbn [findLinked]; [discriminate |].
  destruct (isLinkedField linked f) eqn:Hlinked.
  - destruct (isLinkedField_Elem linked f Hlinked) as (elem & Helem). rewrite Helem.
    destruct (findResource rs (Pluralize (Jsonify (reflect.Name elem))))
      as [t' |] eqn:Hfind.
    + intros [= <-].
      destruct (findResource_first _ _ _ Hfind) as (rs1 & rs2 & Hrs & Hname & Hall).
      exists [], f, fields, elem, rs1, rs2. rewrite Hname.
      repeat split; try assumption; try reflexivity. constructor.
    + intros H. destruct (IH H)
        as (before & field & after & elem' & rs1 & rs2 & -> & Hl & He & Hrs & Hn & H1 & H2).
      exists (f :: before), field, after, elem', rs1, rs2.
      repeat split; try assumption; try reflexivity.
      constructor; [| exact H2].
      intros x Hx (_ & elem0 & Helem0 & Hname0).
      rewrite Helem in Helem0. injection Helem0 as <-.
      exact (findResource_None _ _ Hfind x Hx Hname0).
  - intros H. destruct (IH H)
      as (before & field & after & elem' & rs1 & rs2 & -> & Hl & He & Hrs & Hn & H1 & H2).
    exists (f :: before), field, after, elem', rs1, rs2.
    repeat split; try assumption; try reflexivity.
    constructor; [| exact H2].
    intros x Hx (Hl' & _). congruence.
Qed.

End LinkedProperties.

(** ** The further properties at the instance *)

(** Page 2 of 25 posts, ten to the page. *)
Lemma getLinks_link_pairs_witness :
  let r := Demo.request "/v1/posts" [("page[number]", "2"); ("page[size]", "10")] "" in
  let links := linksOf (getLinks (newPaginationQueryParams r) r 25 Demo.noInfo) in
  (is_Some (links !! "first") <-> is_Some (links !! "prev"))
  /\ (is_Some (links !! "next") <-> is_Some (links !! "last"))
  /\ (forall rel, is_Some (links !! rel) ->
        rel = "first" \/ rel = "prev" \/ rel = "next" \/ rel = "last")
  /\ (@None error <> None -> links !! "next" = None /\ links !! "last" = None).
Proof.
  intros r links.
  apply (getLinks_link_pairs (newPaginationQueryParams r) r 25 Demo.noInfo links None).
  reflexivity.
Defined.

(** The [next] link of that page, with a filter in the query. *)
Lemma getLinks_link_keeps_query_witness :
  let r := Demo.request "/v1/posts"
             [("page[number]", "2"); ("page[size]", "10"); ("filter", "new")] "" in
  let p := newPaginationQueryParams r in
  exists (query : Values) (value : string),
    pageLink Demo.noInfo r "page[number]" "3"
    = (baseURL Demo.noInfo +:+ URL_Path r) +:+ "?" +:+ Values_Encode query
    /\ query !! linkKey p = Some (value, [])
    /\ forall key, key <> linkKey p -> query !! key = URL_Query r !! key.
Proof.
  intros r p.
  apply (getLinks_link_keeps_query p r 25 Demo.noInfo
           (linksOf (getLinks p r 25 Demo.noInfo)) None "next").
  - reflexivity.
  - reflexivity.
Defined.

(** Offset 4 with limit 5: [prev] goes to offset 0, not below. *)
Lemma getLinks_prev_clamped_witness :
  let r := Demo.request "/v1/posts" [("page[offset]", "4"); ("page[limit]", "5")] "" in
  pageLink Demo.noInfo r "page[offset]" "0"
  = pageLink Demo.noInfo r "page[offset]" (FormatUint (Z.max 0 (4 - 5)))
  /\ 0 <= Z.max 0 (4 - 5) <= 4
  /\ linksOf (getLinks (newPaginationQueryParams r) r 10 Demo.noInfo) !! "first"
     = Some (pageLink Demo.noInfo r "page[offset]" "0").
Proof.
  intros r.
  apply (getLinks_prev_clamped (newPaginationQueryParams r) r 10 Demo.noInfo
           (linksOf (getLinks (newPaginationQueryParams r) r 10 Demo.noInfo)) None 4 5).
  - reflexivity.
  - reflexivity.
  - reflexivity.
  - reflexivity.
  - reflexivity.
Defined.

(** Posts 1 and 2 in one read, from a source without [FindMultiple]. *)
Lemma handleRead_dispatch_witness :
  let r := Demo.request "/v1/posts/1,2" [] "" in
  let σ := Demo.world [("1", "old")] in
  handleRead Demo.posts r [("id", "1,2")] Demo.noInfo σ =
  (Failed (HTTPError None "Resource does not implement the FindMultiple interface"
             StatusNotFound), σ).
Proof.
  intros r σ.
  apply (handleRead_dispatch Demo.posts r [("id", "1,2")] Demo.noInfo σ ["1"; "2"]).
  - discriminate.
  - repeat constructor.
  - reflexivity.
Defined.

(** A post created in a store of one: it becomes post 2. *)
Lemma handleCreate_created_witness :
  let r := Demo.request "/v1/posts" [] "{data:{type:posts,title:new}}" in
  let σ := Demo.world [("1", "old")] in
  let σ' := (handleCreate Demo.posts r "/v1/" Demo.noInfo σ).2 in
  (handleCreate Demo.posts r "/v1/" Demo.noInfo σ).1 = Done tt
  /\ store σ' = [("1", "old"); ("2", "new")]
  /\ calls σ' = (calls σ ++ [CallCreate "posts" (Demo.One "" "new") (buildRequest r);
                             CallFindOne "posts" "2" (buildRequest r)])%list
  /\ w_Status (writer σ') = Some StatusCreated
  /\ w_Header (writer σ') !! "Location" = Some ("/v1/" +:+ "posts" +:+ "/" +:+ "2")
  /\ w_Header (writer σ') !! "Content-Type" = Some "application/vnd.api+json"
  /\ w_Body (writer σ') = w_Body (writer σ) +:+ "{data}".
Proof.
  intros r σ.
  apply (handleCreate_created Demo.posts r "/v1/" Demo.noInfo σ
           {["data" := JObject (<["type" := JString "posts"]>
                                 {["title" := JString "new"]})]}
           (Demo.One "" "new") (Demo.One "2" "new") "2" "{data}"
           [("1", "old"); ("2", "new")] [("1", "old"); ("2", "new")]).
  - reflexivity.
  - vm_compute. reflexivity.
  - right. reflexivity.
  - reflexivity.
  - reflexivity.
  - reflexivity.
  - reflexivity.
Defined.

(** A draft is created and cannot be read back: the response is the 404
    of the read, with the location of the new draft. *)
Lemma handleCreate_readback_fails_witness :
  let r := Demo.request "/v1/drafts" [] "{data:{type:posts,title:new}}" in
  let σ := Demo.world [("1", "old")] in
  let σ' := (serve (handleCreate drafts r "/v1/" Demo.noInfo) σ).2 in
  (handleCreate drafts r "/v1/" Demo.noInfo σ).1 = Failed Demo.notFound
  /\ store σ' = [("1", "old"); ("2", "new")]
  /\ w_Status (writer σ') = Some (errorStatus Demo.notFound)
  /\ w_Header (writer σ') !! "Location" = Some ("/v1/" +:+ "drafts" +:+ "/" +:+ "2").
Proof.
  intros r σ.
  apply (handleCreate_readback_fails drafts r "/v1/" Demo.noInfo σ
           {["data" := JObject (<["type" := JString "posts"]>
                                 {["title" := JString "new"]})]}
           (Demo.One "" "new") "2" Demo.notFound
           [("1", "old"); ("2", "new")] [("1", "old"); ("2", "new")]).
  - reflexivity.
  - vm_compute. reflexivity.
  - right. reflexivity.
  - reflexivity.
  - reflexivity.
  - reflexivity.
Defined.

(** Post 1 gets a new title. *)
Lemma handleUpdate_updates_witness :
  let r := Demo.request "/v1/posts/1" [] "{data:{id:1,type:posts,title:new}}" in
  let σ := Demo.world [("1", "old")] in
  handleUpdate Demo.posts r [("id", "1")] σ =
  (Done tt,
   {| store := [("1", "new")];
      calls := (calls σ ++ [CallFindOne "posts" "1" (buildRequest r);
                            CallUpdate "posts" (Demo.One "1" "new") (buildRequest r)])%list;
      writer := WriteHeader StatusNoContent (writer σ) |})
  /\ w_Body (WriteHeader StatusNoContent (writer σ)) = w_Body (writer σ)
  /\ w_Header (WriteHeader StatusNoContent (writer σ)) = w_Header (writer σ)
  /\ (w_Status (writer σ) = None ->
      w_Status (WriteHeader StatusNoContent (writer σ)) = Some StatusNoContent).
Proof.
  intros r σ.
  apply (handleUpdate_updates Demo.posts r [("id", "1")] σ
           {["data" := JObject (<["id" := JString "1"]>
                                 (<["type" := JString "posts"]>
                                  {["title" := JString "new"]}))]}
           (<["id" := JString "1"]>
              (<["type" := JString "posts"]> {["title" := JString "new"]}))
           (Demo.One "1" "old") (Demo.One "1" "new") [("1", "old")]).
  - reflexivity.
  - reflexivity.
  - reflexivity.
  - exists (JString "1"). reflexivity.
  - exists (JString "posts"). reflexivity.
  - reflexivity.
  - vm_compute. reflexivity.
Defined.

(** The first page of one post, two to the page. *)
Lemma handleIndex_paginated_witness :
  let r := Demo.request "/v1/posts" [("page[number]", "1"); ("page[size]", "2")] "" in
  let σ := Demo.world [("1", "old")] in
  let σ' := (handleIndex Demo.posts r Demo.noInfo σ).2 in
  (handleIndex Demo.posts r Demo.noInfo σ).1 = Done tt
  /\ store σ' = [("1", "old")]
  /\ calls σ' = (calls σ ++ [CallPaginatedFindAll "posts" (buildRequest r)])%list
  /\ w_Status (writer σ') = Some StatusOK
  /\ w_Header (writer σ') !! "Content-Type" = Some "application/vnd.api+json"
  /\ w_Body (writer σ') = w_Body (writer σ) +:+ "{data,links}".
Proof.
  intros r σ.
  apply (handleIndex_paginated Demo.posts r Demo.noInfo σ Demo.paginatedFindAll
           (Demo.Many [("1", "old")]) 1 [("1", "old")]
           (linksOf (getLinks (newPaginationQueryParams r) r 1 Demo.noInfo)) ∅
           "{data,links}").
  - reflexivity.
  - reflexivity.
  - reflexivity.
  - reflexivity.
  - reflexivity.
  - reflexivity.
  - reflexivity.
Defined.

(** Page x of the posts. *)
Lemma handleIndex_bad_number_witness :
  let r := Demo.request "/v1/posts" [("page[number]", "x"); ("page[size]", "2")] "" in
  let σ := Demo.world [("1", "old")] in
  handleIndex Demo.posts r Demo.noInfo σ =
  (Failed (NumError "ParseUint" "x" ErrSyntax),
   {| store := [("1", "old")];
      calls := (calls σ ++ [CallPaginatedFindAll "posts" (buildRequest r)])%list;
      writer := writer σ |})
  /\ (exists text kind, NumError "ParseUint" "x" ErrSyntax = NumError "ParseUint" text kind)
  /\ w_Status (writer (serve (handleIndex Demo.posts r Demo.noInfo) σ).2)
     = Some StatusInternalServerError.
Proof.
  intros r σ.
  apply (handleIndex_bad_number Demo.posts r Demo.noInfo σ Demo.paginatedFindAll
           (Demo.Many [("1", "old")]) 1 [("1", "old")] ∅).
  - reflexivity.
  - reflexivity.
  - reflexivity.
  - reflexivity.
  - reflexivity.
Defined.

(** Pages of size zero. *)
Lemma handleIndex_size_zero_panics_witness :
  let r := Demo.request "/v1/posts" [("page[number]", "1"); ("page[size]", "0")] "" in
  let σ := Demo.world [("1", "old")] in
  serve (handleIndex Demo.posts r Demo.noInfo) σ =
  (Panicked "runtime error: integer divide by zero",
   {| store := [("1", "old")];
      calls := (calls σ ++ [CallPaginatedFindAll "posts" (buildRequest r)])%list;
      writer := writer σ |}).
Proof.
  intros r σ.
  apply (handleIndex_size_zero_panics Demo.posts r Demo.noInfo σ Demo.paginatedFindAll
           (Demo.Many [("1", "old")]) 1 1 [("1", "old")]).
  - discriminate.
  - reflexivity.
  - reflexivity.
  - reflexivity.
  - reflexivity.
  - reflexivity.
  - reflexivity.
Defined.

(** The first registration of the instance, posts under [/v1/]. *)
Lemma addResource_routes_witness :
  let api' : API (list (string * string)) Demo.Obj Demo.Store :=
    match AddResource Demo.api0 (Some Demo.Post) Demo.fullSource with
    | Return api' => api'
    | Panic _ => Demo.api0
    end in
  (exists t, Some Demo.Post = Some t /\ reflect.Kind_of t = reflect.Struct
             /\ Demo.posts = {| resourceType := t;
                                name := Jsonify (Pluralize (reflect.Name t));
                                source := Demo.fullSource |})
  /\ resources api' = (resources Demo.api0 ++ [Demo.posts])%list
  /\ prefix api' = "/v1/" /\ info api' = info Demo.api0
  /\ Forall (fun q => q ∈ routes (router api'))
       [("OPTIONS", "/v1/" +:+ "posts"); ("OPTIONS", "/v1/" +:+ "posts" +:+ "/:id");
        ("GET", "/v1/" +:+ "posts"); ("GET", "/v1/" +:+ "posts" +:+ "/:id");
        ("GET", "/v1/" +:+ "posts" +:+ "/:id/:linked"); ("POST", "/v1/" +:+ "posts");
        ("DELETE", "/v1/" +:+ "posts" +:+ "/:id"); ("PATCH", "/v1/" +:+ "posts" +:+ "/:id")]
  /\ (forall q, q ∈ routes (router Demo.api0) -> q ∈ routes (router api')).
Proof.
  intros api'.
  apply (addResource_routes Demo_router_laws Demo.api0 api' (Some Demo.Post)
           Demo.fullSource Demo.posts).
  reflexivity.
Defined.

(** The index of the posts, served by its route. *)
Lemma runHandler_answers_witness :
  let r := Demo.request "/v1/posts" [] "" in
  let σ := Demo.world [("1", "old")] in
  let h := IndexHandler Demo.posts in
  (forall err, (runHandler Demo.api h r [] σ).1 <> Failed err)
  /\ match (runHandler Demo.api h r [] σ).1 with
     | Panicked _ => w_Status (writer (runHandler Demo.api h r [] σ).2) = None
                     /\ w_Body (writer (runHandler Demo.api h r [] σ).2)
                        = w_Body (writer σ)
     | _ => is_Some (w_Status (writer (runHandler Demo.api h r [] σ).2))
     end
  /\ forall allow, h = OptionsHandler allow ->
       runHandler Demo.api h r [] σ =
       (Done tt, {| store := store σ; calls := calls σ;
                    writer := WriteHeader StatusNoContent
                                (Header_Set "Allow" allow (writer σ)) |})
       /\ w_Status (writer (runHandler Demo.api h r [] σ).2) = Some StatusNoContent
       /\ w_Header (writer (runHandler Demo.api h r [] σ).2) !! "Allow" = Some allow.
Proof.
  intros r σ h.
  apply (runHandler_answers Demo.api h r [] σ).
  reflexivity.
Defined.

(** The comments of a post: the third field, the second resource. *)
Lemma findLinked_first_witness :
  exists before field after elem (rs1 rs2 : list (resource Demo.Obj Demo.Store)),
    [("ID", reflect.PlainOf reflect.String_ "string");
     ("Title", reflect.PlainOf reflect.String_ "string");
     ("Comments", reflect.SliceOf "" Demo.Comment);
     ("Author", reflect.PtrTo "" Demo.User)] = (before ++ field :: after)%list
    /\ isLinkedField "comments" field = true
    /\ reflect.Elem field.2 = Return elem
    /\ [Demo.posts; Demo.comments; Demo.users] = (rs1 ++ Demo.comments :: rs2)%list
    /\ name Demo.comments = Pluralize (Jsonify (reflect.Name elem))
    /\ Forall (fun x => name x <> name Demo.comments) rs1
    /\ Forall (fun f => forall x, x ∈ [Demo.posts; Demo.comments; Demo.users] ->
                 ~ isTargetOf "comments" f x) before.
Proof.
  apply (findLinked_first [Demo.posts; Demo.comments; Demo.users] "comments").
  reflexivity.
Defined.
